(** * cognitive-core: the Aider configuration generator

    A shallow embedding of [adapters/aider/generate.py] and the properties
    its specification states about it.

    Conventions of the embedding.
    - A Python [str] is a [string]; a character stands for a code point
      below 256.  The character classes Python derives from the Unicode
      database ([str.isspace], the [\s] of [re]) are written out for that
      range.  The em dash of three fixed headings, which lies above it,
      stands as the bytes of its UTF-8 encoding.
    - A [dict] of strings is a [gmap string string].
    - The file system and the process environment are explicit arguments:
      a function that reads them takes the state it reads.
    - A call that may raise returns a [result]; an [except] clause is a
      match on the exception. *)

From Stdlib Require Import String Ascii List Lia Arith NArith Bool.
From stdpp Require Import base option gmap strings sorting.

Set Default Proof Using "Type".

(** ** Exceptions *)

Inductive exn :=
| FileNotFoundError
| NotADirectoryError
| IsADirectoryError
| PermissionError
| UnicodeDecodeError
| ValueError
| TimeoutExpired.

#[export] Instance exn_eq_dec : EqDecision exn.
Proof. solve_decision. Defined.

(** [isinstance(e, OSError)]. *)
Definition is_OSError (e : exn) : bool :=
  match e with
  | FileNotFoundError | NotADirectoryError | IsADirectoryError
  | PermissionError => true
  | UnicodeDecodeError | ValueError | TimeoutExpired => false
  end.

Inductive result (A : Type) :=
| Ok (a : A)
| Raise (e : exn).
Arguments Ok {A} a.
Arguments Raise {A} e.

#[export] Instance result_ret : MRet result := fun A a => Ok a.
#[export] Instance result_bind : MBind result := fun A B f m =>
  match m with
  | Ok a => f a
  | Raise e => Raise e
  end.

(** ** Python string primitives *)

Module Str.

(** The double quote and the line feed, which a literal cannot hold. *)
Definition dq : string := String (ascii_of_nat 34) "".
Definition nl : string := String (ascii_of_nat 10) "".

(** [str.isspace] on one character (code points below 256): the ASCII
    white space 9..13, the separators 28..31, the space, NEL and NBSP. *)
Definition isspace (c : ascii) : bool :=
  let n := nat_of_ascii c in
  ((9 <=? n) && (n <=? 13)) || ((28 <=? n) && (n <=? 32))
  || (n =? 133) || (n =? 160).

Fixpoint drop (n : nat) (s : string) : string :=
  match n, s with
  | S n', String _ s' => drop n' s'
  | _, _ => s
  end.

Definition startswith (s pre : string) : bool := String.prefix pre s.

Definition endswith (s suf : string) : bool :=
  (String.length suf <=? String.length s)
  && String.eqb (drop (String.length s - String.length suf) s) suf.

(** [sub in s]. *)
Fixpoint contains (sub s : string) : bool :=
  String.prefix sub s ||
  match s with
  | "" => false
  | String _ s' => contains sub s'
  end.

(** The text before and after the first occurrence of [sep]. *)
Fixpoint split_first (sep s : string) : option (string * string) :=
  if String.prefix sep s then Some ("", drop (String.length sep) s)
  else match s with
       | "" => None
       | String c s' =>
           match split_first sep s' with
           | Some (a, b) => Some (String c a, b)
           | None => None
           end
       end.

(** [s.partition(sep)]. *)
Definition partition (s sep : string) : string * string * string :=
  match split_first sep s with
  | Some (a, b) => (a, sep, b)
  | None => (s, "", "")
  end.

(** [s.split(c)] for a separator [c] of one character. *)
Fixpoint split (s : string) (c : ascii) : list string :=
  match s with
  | "" => [""]
  | String x s' =>
      if Ascii.eqb x c then "" :: split s' c
      else match split s' c with
           | h :: t => String x h :: t
           | [] => [String x ""]
           end
  end.

(** [s.split()]: the maximal runs of characters that are not white space. *)
Fixpoint split_ws (s : string) : list string :=
  match s with
  | "" => []
  | String c s' =>
      if isspace c then split_ws s'
      else match s' with
           | "" => [String c ""]
           | String c' _ =>
               if isspace c' then String c "" :: split_ws s'
               else match split_ws s' with
                    | h :: t => String c h :: t
                    | [] => [String c ""]
                    end
           end
  end.

Fixpoint lstrip (s : string) : string :=
  match s with
  | "" => ""
  | String c s' => if isspace c then lstrip s' else s
  end.

Fixpoint rstrip (s : string) : string :=
  match s with
  | "" => ""
  | String c s' =>
      match rstrip s' with
      | "" => if isspace c then "" else String c ""
      | r => String c r
      end
  end.

(** [s.strip()]. *)
Definition strip (s : string) : string := rstrip (lstrip s).

(** [sep.join(l)]. *)
Definition join (sep : string) (l : list string) : string :=
  String.concat sep l.

(** [s.replace(old, new)]: the occurrences of [old] are found from left to
    right and do not overlap.  [skip] counts the characters of a match
    still to be passed over. *)
Fixpoint replace_from (old new : string) (skip : nat) (s : string) : string :=
  match s with
  | "" => ""
  | String c s' =>
      match skip with
      | S k => replace_from old new k s'
      | O =>
          if String.prefix old s
          then new +:+ replace_from old new (String.length old - 1) s'
          else String c (replace_from old new 0 s')
      end
  end.

(** With an empty [old], [new] is put before every character and at the end. *)
Fixpoint intersperse (new s : string) : string :=
  match s with
  | "" => new
  | String c s' => new +:+ String c (intersperse new s')
  end.

Definition replace (s old new : string) : string :=
  match old with
  | "" => intersperse new s
  | _ => replace_from old new 0 s
  end.

End Str.

Abbreviation dq := Str.dq.
Abbreviation nl := Str.nl.

(** ** Regular expressions: the fragment of [re] the generator uses

    A pattern is a sequence of atoms.  Matching is by backtracking in the
    order of Python's engine: a greedy star tries the longest run first, a
    lazy plus the shortest, and the first alternative that lets the rest of
    the pattern match wins.  The lazy atom is the pattern's group 1. *)

Module Re.

Inductive atom :=
| Lit (c : ascii)
| Star (cls : ascii → bool)
| GroupLazyPlus (cls : ascii → bool).

(** [cls*] followed by the continuation [k]. *)
Fixpoint greedy_star {R} (cls : ascii → bool) (k : string → option R)
    (s : string) : option R :=
  match s with
  | "" => k ""
  | String c s' =>
      if cls c
      then match greedy_star cls k s' with
           | Some r => Some r
           | None => k s
           end
      else k s
  end.

(** [cls*?] after the group has taken [acc]. *)
Fixpoint lazy_more {R} (cls : ascii → bool) (k : string → string → option R)
    (acc s : string) : option R :=
  match k acc s with
  | Some r => Some r
  | None =>
      match s with
      | "" => None
      | String c s' =>
          if cls c then lazy_more cls k (acc +:+ String c "") s' else None
      end
  end.

(** [(cls+?)] followed by [k]. *)
Definition lazy_plus {R} (cls : ascii → bool) (k : string → string → option R)
    (s : string) : option R :=
  match s with
  | "" => None
  | String c s' => if cls c then lazy_more cls k (String c "") s' else None
  end.

(** A match of [p] at the head of [s]: group 1 and the text after the match. *)
Fixpoint match_here (p : list atom) (g s : string) : option (string * string) :=
  match p with
  | [] => Some (g, s)
  | Lit c :: p' =>
      match s with
      | "" => None
      | String x s' => if Ascii.eqb x c then match_here p' g s' else None
      end
  | Star cls :: p' => greedy_star cls (match_here p' g) s
  | GroupLazyPlus cls :: p' => lazy_plus cls (match_here p') s
  end.

Record re_match := { m_start : nat; m_end : nat; group1 : string }.

(** [p.finditer(s)]: the matches from left to right, each search starting
    where the previous match ended.  [pos] is the offset of [s] in the
    scanned text and [skip] the characters of the last match not yet
    passed. *)
Fixpoint finditer_from (p : list atom) (skip pos : nat) (s : string)
    : list re_match :=
  match s with
  | "" =>
      match skip, match_here p "" "" with
      | O, Some (g, _) => [{| m_start := pos; m_end := pos; group1 := g |}]
      | _, _ => []
      end
  | String _ s' =>
      match skip with
      | S k => finditer_from p k (S pos) s'
      | O =>
          match match_here p "" s with
          | Some (g, rest) =>
              let len := String.length s - String.length rest in
              {| m_start := pos; m_end := pos + len; group1 := g |}
                :: finditer_from p (len - 1) (S pos) s'
          | None => finditer_from p 0 (S pos) s'
          end
      end
  end.

Definition finditer (p : list atom) (s : string) : list re_match :=
  finditer_from p 0 0 s.

(** A literal run of characters. *)
Fixpoint lits (s : string) : list atom :=
  match s with
  | "" => []
  | String c s' => Lit c :: lits s'
  end.

(** [\s] and [.] (without DOTALL: any character but the line feed). *)
Definition space_class : ascii → bool := Str.isspace.
Definition dot_class (c : ascii) : bool := negb (Ascii.eqb c (ascii_of_nat 10)).

End Re.

(** ** The file system and [os.path]

    What the generator observes of the file system: for each path string,
    whether it names a regular file (and what reading it as text gives) or
    a directory (and what listing it gives). *)

Inductive node :=
| File (contents : result string)
| Dir (listing : result (list string)).

Definition filesystem := string → option node.

Module os.

Definition isfile (fs : filesystem) (p : string) : bool :=
  match fs p with
  | Some (File _) => true
  | _ => false
  end.

Definition isdir (fs : filesystem) (p : string) : bool :=
  match fs p with
  | Some (Dir _) => true
  | _ => false
  end.

(** [open(p).read()]. *)
Definition read (fs : filesystem) (p : string) : result string :=
  match fs p with
  | Some (File r) => r
  | Some (Dir _) => Raise IsADirectoryError
  | None => Raise FileNotFoundError
  end.

Definition listdir (fs : filesystem) (p : string) : result (list string) :=
  match fs p with
  | Some (Dir l) => l
  | Some (File _) => Raise NotADirectoryError
  | None => Raise FileNotFoundError
  end.

(** [posixpath.join] of two parts, and of a first part with more. *)
Definition join2 (a b : string) : string :=
  if Str.startswith b "/" then b
  else if String.eqb a "" || Str.endswith a "/" then a +:+ b
  else a +:+ "/" +:+ b.

Definition join (a : string) (p : list string) : string := foldl join2 a p.

(** [posixpath.dirname]: the head up to the last slash, without trailing
    slashes unless it is made of slashes only. *)
Fixpoint rstrip_slash (s : string) : string :=
  match s with
  | "" => ""
  | String c s' =>
      match rstrip_slash s' with
      | "" => if Ascii.eqb c "/" then "" else String c ""
      | r => String c r
      end
  end.

Fixpoint head_to_last_slash (s : string) : string :=
  match s with
  | "" => ""
  | String c s' =>
      if Str.contains "/" s then String c (head_to_last_slash s') else ""
  end.

Definition dirname (p : string) : string :=
  let head := head_to_last_slash p in
  match rstrip_slash head with
  | "" => head
  | r => r
  end.

(** [posixpath.normpath]: the loop over the components keeps a stack. *)
Definition norm_step (absolute : bool) (new_comps : list string)
    (comp : string) : list string :=
  if String.eqb comp "" || String.eqb comp "." then new_comps
  else if negb (String.eqb comp "..")
          || (negb absolute && bool_decide (new_comps = []))
          || (match last new_comps with
              | Some l => String.eqb l ".."
              | None => false
              end)
       then new_comps ++ [comp]
       else removelast new_comps.

Definition initial_slashes (path : string) : nat :=
  if Str.startswith path "/"
  then if Str.startswith path "//" && negb (Str.startswith path "///")
       then 2 else 1
  else 0.

Fixpoint slashes (n : nat) : string :=
  match n with
  | O => ""
  | S n' => "/" +:+ slashes n'
  end.

Definition normpath (path : string) : string :=
  if String.eqb path "" then "."
  else
    let i := initial_slashes path in
    let comps := foldl (norm_step (negb (i =? 0))) [] (Str.split path "/") in
    let p := slashes i +:+ Str.join "/" comps in
    if String.eqb p "" then "." else p.

(** [posixpath.abspath], in a process whose working directory is [cwd]. *)
Definition abspath (cwd path : string) : string :=
  normpath (if Str.startswith path "/" then path else join2 cwd path).

(** [len(commonprefix([l1, l2]))] for two lists of components. *)
Fixpoint common_prefix_len (l1 l2 : list string) : nat :=
  match l1, l2 with
  | x :: l1', y :: l2' =>
      if String.eqb x y then S (common_prefix_len l1' l2') else 0
  | _, _ => 0
  end.

Definition components (p : string) : list string :=
  filter (λ x, x ≠ "") (Str.split p "/").

(** [posixpath.relpath(path, start)]. *)
Definition relpath (cwd path start : string) : result string :=
  if String.eqb path "" then Raise ValueError
  else
    let start_list := components (abspath cwd start) in
    let path_list := components (abspath cwd path) in
    let i := common_prefix_len start_list path_list in
    let rel_list :=
      repeat ".." (length start_list - i) ++ List.skipn i path_list in
    match rel_list with
    | [] => Ok "."
    | h :: t => Ok (join h t)
    end.

End os.

(** ** The generator *)

(** [sorted] on a list of strings: insertion into code-point order. *)
Fixpoint insert_sorted (x : string) (l : list string) : list string :=
  match l with
  | [] => [x]
  | y :: l' => if String.leb x y then x :: l else y :: insert_sorted x l'
  end.

Definition sorted (l : list string) : list string :=
  foldr insert_sorted [] l.

(** [config.get(key, default)]. *)
Definition get (config : gmap string string) (key dflt : string) : string :=
  default dflt (config !! key).

(** What a renderer writes: the target path, the text, and whether the
    file is made executable afterwards. *)
Record RenderedDocument := {
  path : string;
  content : string;
  executable : bool
}.

(** *** load_config *)

(** The command line handed to [bash -c]. *)
Definition load_config_cmd (config_file : string) : string :=
  "set -a; source " +:+ dq +:+ config_file +:+ dq
  +:+ " 2>/dev/null; env | grep " +:+ dq +:+ "^CC_" +:+ dq.

(** The loop over the lines of the captured output. *)
Definition parse_line (config : gmap string string) (line : string)
    : gmap string string :=
  if Str.contains "=" line
  then let '(key, _, value) := Str.partition line "=" in <[key := value]> config
  else config.

Definition parse_stdout (stdout : string) : gmap string string :=
  foldl parse_line ∅ (Str.split (Str.strip stdout) (ascii_of_nat 10)).

(** [run argv] is what [subprocess.run(argv, capture_output=True, text=True,
    timeout=5)] does in the process at hand: the captured standard output,
    or the exception raised. *)
Definition load_config (fs : filesystem) (run : list string → result string)
    (config_file : string) : result (gmap string string) :=
  if String.eqb config_file "" || negb (os.isfile fs config_file) then Ok ∅
  else
    match run ["bash"; "-c"; load_config_cmd config_file] with
    | Ok stdout => Ok (parse_stdout stdout)
    | Raise TimeoutExpired | Raise FileNotFoundError => Ok ∅
    | Raise e => Raise e
    end.

(** *** The safety rules *)

Definition _default_safety_rules : string :=
"- NEVER execute: rm -rf targeting system-critical paths (/, /etc, /usr, /var, /home)
- NEVER execute: git push --force to main/master
- NEVER execute: git reset --hard (destructive, may lose work)
- NEVER execute: DROP TABLE or TRUNCATE TABLE
- NEVER execute: DELETE FROM without WHERE clause
- NEVER execute: rm .git directory
- NEVER execute: chmod 777 (insecure permissions)
- NEVER execute: git clean -f without -n dry-run
- NEVER pipe curl/wget output to sh/bash (supply chain risk)
- NEVER use base64 -d | sh (encoded command execution)
- NEVER use eval with command substitution
- NEVER pipe environment variables to external commands".

(** [re.compile(r'REASON="Blocked:\s*(.+?)"')]. *)
Definition reason_marker : string := "REASON=" +:+ dq +:+ "Blocked:".

Definition reason_pattern : list Re.atom :=
  Re.lits reason_marker
  ++ [Re.Star Re.space_class; Re.GroupLazyPlus Re.dot_class;
      Re.Lit (ascii_of_nat 34)].

(** The rule appended for one match. *)
Definition rule_of_match (m : Re.re_match) : string :=
  "- NEVER: " +:+ Str.strip (Re.group1 m).

Definition _extract_safety_rules (fs : filesystem) (install_dir : string)
    : result string :=
  let hook_path := os.join install_dir ["hooks"; "validate-bash.sh"] in
  if negb (os.isfile fs hook_path) then Ok _default_safety_rules
  else
    match os.read fs hook_path with
    | Ok content =>
        let rules := map rule_of_match (Re.finditer reason_pattern content) in
        match rules with
        | [] => Ok _default_safety_rules
        | _ => Ok (Str.join nl rules)
        end
    | Raise e =>
        if is_OSError e || bool_decide (e = UnicodeDecodeError)
        then Ok _default_safety_rules
        else Raise e
    end.

Section Generator.

(** [str.title], which Python computes from the Unicode database. *)
Variable title : string → string.

(** [__file__], the path of the generator script. *)
Variable script_file : string.

(** *** The agent references *)

Definition no_agent_docs : string := "No agent documentation installed.".

Definition agent_ref (agent_file : string) : string :=
  let name :=
    title (Str.replace (Str.replace agent_file ".md" "") "-" " ") in
  let rel_path := os.join ".cognitive-core" ["agents"; agent_file] in
  "- **" +:+ name +:+ "**: `" +:+ rel_path +:+ "`".

Definition md_files (entries : list string) : list string :=
  filter (λ f, Str.endswith f ".md" = true) (sorted entries).

Definition _build_agent_refs (fs : filesystem) (install_dir : string)
    : result string :=
  let agents_dir := os.join install_dir ["agents"] in
  if negb (os.isdir fs agents_dir) then Ok no_agent_docs
  else
    entries ← os.listdir fs agents_dir;
    let refs := map agent_ref (md_files entries) in
    match refs with
    | [] => Ok no_agent_docs
    | _ =>
        Ok ("Agent documentation is available for reference:" +:+ nl
            +:+ Str.join nl refs
            +:+ nl +:+ nl
            +:+ "Use their guidance when working in their specialist domains.")
    end.

(** *** generate_settings *)

Definition settings_head (config : gmap string string) : list string :=
  let model := get config "CC_AIDER_MODEL" "qwen2.5-coder:32b" in
  let edit_format := get config "CC_AIDER_EDIT_FORMAT" "diff" in
  let lint_cmd := get config "CC_LINT_COMMAND" "echo no-lint" in
  let test_cmd := get config "CC_TEST_COMMAND" "echo no-tests" in
  let project_name := get config "CC_PROJECT_NAME" "project" in
  [ "# cognitive-core generated Aider configuration";
    "# Platform: aider + ollama";
    "# Project: " +:+ project_name;
    "";
    "# Model configuration";
    "model: ollama_chat/" +:+ model;
    "editor-model: ollama_chat/" +:+ model;
    "";
    "# Edit format";
    "edit-format: " +:+ edit_format;
    "";
    "# Auto-lint after edits";
    "auto-lint: true";
    "lint-cmd: " +:+ lint_cmd;
    "";
    "# Auto-test after edits";
    "auto-test: false";
    "test-cmd: " +:+ test_cmd;
    "";
    "# Read-only context files (always in context)";
    "read:";
    "  - CONVENTIONS.md" ].

(** The line added for one agent document. *)
Definition settings_agent_line (cwd project_dir agents_dir agent_file : string)
    : result string :=
  rel_path ← os.relpath cwd (os.join agents_dir [agent_file]) project_dir;
  Ok ("  - " +:+ rel_path).

Definition settings_agent_lines (fs : filesystem) (cwd : string)
    (project_dir install_dir : string) : result (list string) :=
  let agents_dir := os.join install_dir ["agents"] in
  if os.isdir fs agents_dir
  then
    entries ← os.listdir fs agents_dir;
    mapM (settings_agent_line cwd project_dir agents_dir) (md_files entries)
  else Ok [].

Definition settings_lines (fs : filesystem) (cwd : string)
    (project_dir install_dir : string) (config : gmap string string)
    : result (list string) :=
  agent_lines ← settings_agent_lines fs cwd project_dir install_dir;
  Ok (settings_head config ++ agent_lines).

Definition generate_settings (fs : filesystem) (cwd : string)
    (project_dir install_dir : string) (config : gmap string string)
    : result RenderedDocument :=
  let conf_path := os.join project_dir [".aider.conf.yml"] in
  lines ← settings_lines fs cwd project_dir install_dir config;
  Ok {| path := conf_path;
        content := Str.join nl lines +:+ nl;
        executable := false |}.

(** *** generate_conventions *)

(** The values read from the configuration, with their defaults. *)
Record conventions_values := {
  project_name : string;
  language : string;
  architecture : string;
  database : string;
  lint_cmd : string;
  test_cmd : string;
  main_branch : string;
  commit_format : string;
  commit_scopes : string;
  src_root : string;
  test_root : string;
  compact_rules : string
}.

Definition conventions_config (config : gmap string string)
    : conventions_values :=
  {| project_name := get config "CC_PROJECT_NAME" "project";
     language := get config "CC_LANGUAGE" "unknown";
     architecture := get config "CC_ARCHITECTURE" "none";
     database := get config "CC_DATABASE" "none";
     lint_cmd := get config "CC_LINT_COMMAND" "echo no-lint";
     test_cmd := get config "CC_TEST_COMMAND" "echo no-tests";
     main_branch := get config "CC_MAIN_BRANCH" "main";
     commit_format := get config "CC_COMMIT_FORMAT" "conventional";
     commit_scopes := get config "CC_COMMIT_SCOPES" "core";
     src_root := get config "CC_SRC_ROOT" "src";
     test_root := get config "CC_TEST_ROOT" "tests";
     compact_rules := get config "CC_COMPACT_RULES" "" |}.

(** The [replacements] dict, in the order its items are visited. *)
Definition replacements (v : conventions_values) : list (string * string) :=
  [ ("{{CC_PROJECT_NAME}}", project_name v);
    ("{{CC_LANGUAGE}}", language v);
    ("{{CC_ARCHITECTURE}}", architecture v);
    ("{{CC_DATABASE}}", database v);
    ("{{CC_LINT_COMMAND}}", lint_cmd v);
    ("{{CC_TEST_COMMAND}}", test_cmd v);
    ("{{CC_MAIN_BRANCH}}", main_branch v);
    ("{{CC_COMMIT_FORMAT}}", commit_format v);
    ("{{CC_COMMIT_SCOPES}}", commit_scopes v);
    ("{{CC_SRC_ROOT}}", src_root v);
    ("{{CC_TEST_ROOT}}", test_root v);
    ("{{CC_COMPACT_RULES}}", compact_rules v) ].

Definition replace_all (content : string) (r : list (string * string))
    : string :=
  foldl (λ content '(placeholder, value), Str.replace content placeholder value)
    content r.

(** The template path: every substitution, in the order of the code. *)
Definition render_template (v : conventions_values)
    (safety_rules agent_refs content : string) : string :=
  let content := replace_all content (replacements v) in
  let content := Str.replace content "{{SAFETY_RULES}}" safety_rules in
  Str.replace content "{{AGENT_CONTEXT}}" agent_refs.

(** The text generated without a template. *)
Definition render_direct (v : conventions_values)
    (safety_rules agent_refs : string) : string :=
"# Project Conventions — " +:+ project_name v +:+ "

## Project Identity
- **Project**: " +:+ project_name v +:+ "
- **Language**: " +:+ language v +:+ "
- **Architecture**: " +:+ architecture v +:+ "
- **Database**: " +:+ database v +:+ "

## Code Standards
- Follow " +:+ language v +:+ " community best practices
- Run lint before every commit: `" +:+ lint_cmd v +:+ "`
- Run tests: `" +:+ test_cmd v +:+ "`
- All new code must have tests

## Git Conventions
- Main branch: `" +:+ main_branch v +:+ "`
- Commit format: `type(scope): subject` (" +:+ commit_format v +:+ " format)
- Scopes: " +:+ commit_scopes v +:+ "
- NO AI/tool references in commit messages

## Safety Rules (CRITICAL — MUST FOLLOW)
" +:+ safety_rules +:+ "

## Architecture
Pattern: **" +:+ architecture v +:+ "**
Source root: `" +:+ src_root v +:+ "`
Test root: `" +:+ test_root v +:+ "`

## Key Rules
" +:+ compact_rules v +:+ "

## Agent Context
" +:+ agent_refs +:+ "
".

Definition template_path : string :=
  os.join (os.dirname script_file) ["templates"; "CONVENTIONS.md.tmpl"].

Definition generate_conventions (fs : filesystem)
    (project_dir install_dir : string) (config : gmap string string)
    : result RenderedDocument :=
  let conv_path := os.join project_dir ["CONVENTIONS.md"] in
  let v := conventions_config config in
  if os.isfile fs template_path
  then
    content ← os.read fs template_path;
    safety_rules ← _extract_safety_rules fs install_dir;
    agent_refs ← _build_agent_refs fs install_dir;
    Ok {| path := conv_path;
          content := render_template v safety_rules agent_refs content;
          executable := false |}
  else
    safety_rules ← _extract_safety_rules fs install_dir;
    agent_refs ← _build_agent_refs fs install_dir;
    Ok {| path := conv_path;
          content := render_direct v safety_rules agent_refs;
          executable := false |}.

(** *** generate_ignore *)

Definition ignore_baseline : list string :=
  [ "# cognitive-core generated .aiderignore";
    "# Prevents Aider from reading sensitive files";
    "";
    "# Secrets and credentials";
    ".env";
    ".env.*";
    "*.pem";
    "*.key";
    "credentials.json";
    "secrets.yaml";
    "secrets.yml";
    "";
    "# Runtime logs";
    ".cognitive-core/cognitive-core/security.log";
    "";
    "# Build artifacts";
    "node_modules/";
    "__pycache__/";
    "*.pyc";
    ".git/";
    "";
    "# IDE and editor files";
    ".idea/";
    ".vscode/";
    "*.swp";
    "*.swo" ].

Definition blocked_label : string := "# Project-specific blocked patterns".

Definition ignore_lines (config : gmap string string) : list string :=
  let blocked := get config "CC_BLOCKED_PATTERNS" "" in
  if String.eqb blocked "" then ignore_baseline
  else ignore_baseline ++ [""; blocked_label] ++ Str.split_ws blocked.

Definition generate_ignore (project_dir install_dir : string)
    (config : gmap string string) : result RenderedDocument :=
  let ignore_path := os.join project_dir [".aiderignore"] in
  Ok {| path := ignore_path;
        content := Str.join nl (ignore_lines config) +:+ nl;
        executable := false |}.

(** *** generate_launcher *)

Definition _generate_env_exports (env_vars : string) : string :=
  if String.eqb (Str.strip env_vars) ""
  then "# No additional environment variables configured"
  else
    let exports :=
      omap (λ line,
              let line := Str.strip line in
              if negb (String.eqb line "") && Str.contains "=" line
              then Some ("export " +:+ line) else None)
           (Str.split (Str.strip env_vars) (ascii_of_nat 10)) in
    match exports with
    | [] => "# No additional environment variables"
    | _ => Str.join nl exports
    end.

Definition launcher_lines (config : gmap string string) : list string :=
  let model := get config "CC_AIDER_MODEL" "qwen2.5-coder:32b" in
  let ollama_base := get config "CC_AIDER_OLLAMA_BASE" "http://localhost:11434" in
  let project_name := get config "CC_PROJECT_NAME" "project" in
  let env_vars := get config "CC_ENV_VARS" "" in
  [ "#!/bin/bash";
    "# cognitive-core Aider launcher — " +:+ project_name;
    "# Sets up environment and launches Aider with correct configuration";
    "set -euo pipefail";
    "";
    "SCRIPT_DIR=" +:+ dq +:+ "$(cd " +:+ dq +:+ "$(dirname " +:+ dq +:+ "$0"
      +:+ dq +:+ ")" +:+ dq +:+ " && pwd)" +:+ dq;
    "";
    "# Load cognitive-core configuration";
    "if [ -f " +:+ dq +:+ "${SCRIPT_DIR}/cognitive-core.conf" +:+ dq
      +:+ " ]; then";
    "    # shellcheck disable=SC1091";
    "    source " +:+ dq +:+ "${SCRIPT_DIR}/cognitive-core.conf" +:+ dq;
    "fi";
    "";
    "# Set Ollama base URL";
    "export OLLAMA_API_BASE=" +:+ dq +:+ "${CC_AIDER_OLLAMA_BASE:-"
      +:+ ollama_base +:+ "}" +:+ dq;
    "";
    "# Environment variables from config";
    _generate_env_exports env_vars;
    "";
    "echo " +:+ dq +:+ "=== cognitive-core Aider launcher ===" +:+ dq;
    "echo " +:+ dq +:+ "Project:  " +:+ project_name +:+ dq;
    "echo " +:+ dq +:+ "Model:    ${CC_AIDER_MODEL:-" +:+ model +:+ "}" +:+ dq;
    "echo " +:+ dq +:+ "Ollama:   ${OLLAMA_API_BASE}" +:+ dq;
    "echo " +:+ dq +:+ dq;
    "";
    "# Launch Aider with project configuration";
    "exec aider " +:+ dq +:+ "$@" +:+ dq ].

Definition generate_launcher (project_dir install_dir : string)
    (config : gmap string string) : result RenderedDocument :=
  let launcher_path := os.join project_dir ["cc-aider-start.sh"] in
  Ok {| path := launcher_path;
        content := Str.join nl (launcher_lines config) +:+ nl;
        executable := true |}.

(** *** The table of generators of [main] *)

Inductive mode := settings | conventions | ignore | launcher.

Definition generators (m : mode) (fs : filesystem) (cwd : string)
    (project_dir install_dir : string) (config : gmap string string)
    : result RenderedDocument :=
  match m with
  | settings => generate_settings fs cwd project_dir install_dir config
  | conventions => generate_conventions fs project_dir install_dir config
  | ignore => generate_ignore project_dir install_dir config
  | launcher => generate_launcher project_dir install_dir config
  end.


End Generator.

(** ** The shell command of [load_config]

    What [set -a; source FILE 2>/dev/null; env | grep "^CC_"] prints when
    FILE holds plain assignments [NAME=VALUE].  The shell starts from the
    environment of the generator process, since [subprocess.run] is given
    no [env]; [set -a] exports what the file assigns; [env] prints one
    [NAME=VALUE] line per variable and [grep] keeps the lines that begin
    with [CC_]. *)

Module Shell.

Definition environment := list (string * string).

(** An assignment replaces the value of a variable the environment has,
    or adds the variable. *)
Fixpoint assign (env : environment) (name value : string) : environment :=
  match env with
  | [] => [(name, value)]
  | (n, v) :: env' =>
      if String.eqb n name then (n, value) :: env'
      else (n, v) :: assign env' name value
  end.

Definition source (env : environment) (assignments : list (string * string))
    : environment :=
  foldl (λ e '(n, v), assign e n v) env assignments.

Definition env_line (nv : string * string) : string :=
  nv.1 +:+ "=" +:+ nv.2 +:+ nl.

Fixpoint cat (l : list string) : string :=
  match l with
  | [] => ""
  | x :: l' => x +:+ cat l'
  end.

Definition env_output (env : environment) : string := cat (map env_line env).

(** [grep "^CC_"]: the selected lines (a piece after the last line feed is
    empty or a last line without line feed; the empty one is never
    selected). *)
Definition grep_lines (text : string) : list string :=
  filter (λ l, Str.startswith l "CC_" = true) (Str.split text (ascii_of_nat 10)).

Definition grep (text : string) : string :=
  cat (map (λ l, l +:+ nl) (grep_lines text)).

Definition stdout (environ : environment) (assignments : list (string * string))
    : string :=
  grep (env_output (source environ assignments)).

End Shell.

(** ** Vocabulary of the statements *)

(** No character of [s] is [c]. *)
Fixpoint free_of (c : ascii) (s : string) : bool :=
  match s with
  | "" => true
  | String x s' => negb (Ascii.eqb x c) && free_of c s'
  end.

(** A placeholder token of a template: a name without braces between
    double braces. *)
Definition brace_free (s : string) : bool := free_of "{" s && free_of "}" s.

Definition placeholder (name : string) : string := "{{" +:+ name +:+ "}}".

(** The names [generate_conventions] substitutes. *)
Definition recognized_names : list string :=
  [ "CC_PROJECT_NAME"; "CC_LANGUAGE"; "CC_ARCHITECTURE"; "CC_DATABASE";
    "CC_LINT_COMMAND"; "CC_TEST_COMMAND"; "CC_MAIN_BRANCH";
    "CC_COMMIT_FORMAT"; "CC_COMMIT_SCOPES"; "CC_SRC_ROOT"; "CC_TEST_ROOT";
    "CC_COMPACT_RULES"; "SAFETY_RULES"; "AGENT_CONTEXT" ].

(** All characters of [s] are white space. *)
Fixpoint all_space (s : string) : bool :=
  match s with
  | "" => true
  | String c s' => Str.isspace c && all_space s'
  end.

(** No character of [s] is white space. *)
Fixpoint no_space (s : string) : bool :=
  match s with
  | "" => true
  | String c s' => negb (Str.isspace c) && no_space s'
  end.

(** A token of a white-space separated list. *)
Definition token (s : string) : bool := negb (String.eqb s "") && no_space s.

(** The reason of a marker written the plain way: not empty, on one line,
    without a double quote and without white space at either end. *)
Definition plain_reason (r : string) : bool :=
  negb (String.eqb r "")
  && free_of (ascii_of_nat 10) r && free_of (ascii_of_nat 34) r
  && String.eqb (Str.strip r) r.

(** A hook text made of one marker line per reason. *)
Definition marker_line (r : string) : string :=
  reason_marker +:+ " " +:+ r +:+ dq +:+ nl.

Definition hook_text (reasons : list string) : string :=
  Shell.cat (map marker_line reasons).

(** Where a match lies in the scanned text. *)
Definition occurrence (content : string) (m : Re.re_match) : Prop :=
  ∃ pre ws post,
    content = pre +:+ reason_marker +:+ ws +:+ Re.group1 m +:+ dq +:+ post
    ∧ String.length pre = Re.m_start m
    ∧ Re.m_end m
      = Re.m_start m
        + String.length (reason_marker +:+ ws +:+ Re.group1 m +:+ dq)
    ∧ all_space ws = true
    ∧ Re.group1 m ≠ ""
    ∧ free_of (ascii_of_nat 10) (Re.group1 m) = true.

(** The matches come in the order of the text and do not overlap. *)
Fixpoint in_order (from : nat) (ms : list Re.re_match) : Prop :=
  match ms with
  | [] => True
  | m :: ms' => from ≤ Re.m_start m ∧ Re.m_start m < Re.m_end m
                ∧ in_order (Re.m_end m) ms'
  end.

(** A file name as [os.listdir] returns it: one path component. *)
Definition file_name (f : string) : bool :=
  negb (String.eqb f "") && negb (String.eqb f ".") && negb (String.eqb f "..")
  && free_of "/" f.

(** The components of the normalised path, as the loop of [normpath]
    leaves them. *)
Definition norm_comps (path : string) : list string :=
  foldl (os.norm_step (negb (os.initial_slashes path =? 0))) []
    (Str.split path "/").

(** The path [abspath] normalises. *)
Definition absolute (cwd path : string) : string :=
  if Str.startswith path "/" then path else os.join2 cwd path.

(** [str.title] on ASCII text. *)
Definition is_lower (c : ascii) : bool :=
  (97 <=? nat_of_ascii c) && (nat_of_ascii c <=? 122).
Definition is_upper (c : ascii) : bool :=
  (65 <=? nat_of_ascii c) && (nat_of_ascii c <=? 90).
Definition to_upper (c : ascii) : ascii :=
  if is_lower c then ascii_of_nat (nat_of_ascii c - 32) else c.
Definition to_lower (c : ascii) : ascii :=
  if is_upper c then ascii_of_nat (nat_of_ascii c + 32) else c.

Fixpoint title_from (prev_cased : bool) (s : string) : string :=
  match s with
  | "" => ""
  | String c s' =>
      let cased := is_lower c || is_upper c in
      String (if prev_cased then to_lower c else to_upper c)
             (title_from cased s')
  end.

Definition title_ascii (s : string) : string := title_from false s.

(** The order of [sorted]: code point by code point. *)
Definition str_le (a b : string) : Prop := String.leb a b = true.

(** One [KEY=VALUE] line of an environment block, with nothing around it. *)
Definition export_line (l : string) : bool :=
  negb (String.eqb l "") && Str.contains "=" l
  && free_of (ascii_of_nat 10) l && String.eqb (Str.strip l) l.

(** The name of a variable in the output of [env]: without [=] and line
    feed, and not beginning with white space. *)
Definition env_name (k : string) : bool :=
  free_of "=" k && free_of (ascii_of_nat 10) k
  && match k with
     | "" => false
     | String c _ => negb (Str.isspace c)
     end.

(** The dict [load_config] builds from a list of pairs. *)
Definition dict_of (pairs : list (string * string)) : gmap string string :=
  foldl (λ m nv, <[nv.1 := nv.2]> m) ∅ pairs.

(** All the substitutions of the template path, in their order. *)
Definition substitutions (v : conventions_values)
    (safety_rules agent_refs : string) : list (string * string) :=
  replacements v
  ++ [("{{SAFETY_RULES}}", safety_rules); ("{{AGENT_CONTEXT}}", agent_refs)].

(** A hook script with markers in it: before each marker some text that
    holds no marker, and some more after the last. *)
Definition hook_script (items : list (string * string)) (rest : string)
    : string :=
  Shell.cat (map (λ fr, fr.1 +:+ reason_marker +:+ " " +:+ fr.2 +:+ dq) items)
  +:+ rest.

(** ** File systems and inputs of the examples *)

Definition no_files : filesystem := λ _, None.

Definition with_node (p : string) (n : node) (fs : filesystem) : filesystem :=
  λ q, if String.eqb q p then Some n else fs q.

Definition two_markers : string :=
  reason_marker +:+ " rm -rf /" +:+ dq +:+ nl
  +:+ reason_marker +:+ " force push" +:+ dq.

Definition hook_fs (text : string) : filesystem :=
  with_node "/p/.cognitive-core/hooks/validate-bash.sh" (File (Ok text)) no_files.

Definition agents_fs (install_dir : string) (entries : list string)
    : filesystem :=
  with_node (os.join install_dir ["agents"]) (Dir (Ok entries)) no_files.

Definition conf_fs : filesystem :=
  with_node "/p/cognitive-core.conf" (File (Ok "CC_PROJECT_NAME=demo")) no_files.

Definition script : string := "/opt/cc/adapters/aider/generate.py".

Definition template_fs (text : string) : filesystem :=
  with_node "/opt/cc/adapters/aider/templates/CONVENTIONS.md.tmpl"
    (File (Ok text)) no_files.

Definition demo_config : gmap string string :=
  <["CC_PROJECT_NAME" := "demo"]> (<["CC_AIDER_MODEL" := "llama3"]> ∅).

Definition blocked_config : gmap string string :=
  <["CC_BLOCKED_PATTERNS" := "*.secret build/"]> ∅.

(** * Properties *)

(** ** Strings *)

Lemma str_app_cons (c : ascii) (a b : string) :
  String c a +:+ b = String c (a +:+ b).
Proof. done. Qed.

Lemma str_app_nil_l (s : string) : "" +:+ s = s.
Proof. done. Qed.

Lemma str_app_nil_r (s : string) : s +:+ "" = s.
Proof. induction s as [|c s IH]; [done | by rewrite str_app_cons, IH]. Qed.

Lemma str_app_assoc (a b c : string) : a +:+ b +:+ c = (a +:+ b) +:+ c.
Proof. induction a as [|x a IH]; [done | by rewrite !str_app_cons, IH]. Qed.

Lemma str_length_app (a b : string) :
  String.length (a +:+ b) = String.length a + String.length b.
Proof. induction a as [|x a IH]; [done | by rewrite str_app_cons; simpl; rewrite IH]. Qed.

Lemma str_app_eq_nil (a b : string) : a +:+ b = "" → a = "" ∧ b = "".
Proof. destruct a; [done | by rewrite str_app_cons]. Qed.

Lemma ascii_eqb_refl (c : ascii) : Ascii.eqb c c = true.
Proof. by apply Ascii.eqb_eq. Qed.

Lemma prefix_nil (s : string) : String.prefix "" s = true.
Proof. by destruct s. Qed.

Lemma prefix_cons (c x : ascii) (p s : string) :
  String.prefix (String c p) (String x s)
  = Ascii.eqb c x && String.prefix p s.
Proof.
  simpl. destruct (ascii_dec c x) as [->|Hne].
  - by rewrite ascii_eqb_refl.
  - by apply Ascii.eqb_neq in Hne as ->.
Qed.

Lemma prefix_app (p s : string) : String.prefix p (p +:+ s) = true.
Proof.
  induction p as [|c p IH]; [apply prefix_nil|].
  by rewrite str_app_cons, prefix_cons, ascii_eqb_refl.
Qed.

Lemma prefix_split (p s : string) :
  String.prefix p s = true → ∃ r, s = p +:+ r.
Proof.
  revert s. induction p as [|c p IH]; intros s H; [by exists s|].
  destruct s as [|x s]; [done|].
  rewrite prefix_cons in H. apply andb_true_iff in H as [Hc Hp].
  apply Ascii.eqb_eq in Hc as ->. destruct (IH _ Hp) as [r ->]. by exists r.
Qed.

Lemma prefix_app_l (p a b : string) :
  String.prefix p a = true → String.prefix p (a +:+ b) = true.
Proof.
  intros [r ->]%prefix_split. rewrite <- str_app_assoc. apply prefix_app.
Qed.

Lemma drop_app (p s : string) : Str.drop (String.length p) (p +:+ s) = s.
Proof. induction p as [|c p IH]; [by destruct s | by rewrite str_app_cons]. Qed.

Lemma drop_0 (s : string) : Str.drop 0 s = s.
Proof. by destruct s. Qed.

Lemma drop_nil (n : nat) : Str.drop n "" = "".
Proof. by destruct n. Qed.

Lemma free_of_app (c : ascii) (a b : string) :
  free_of c (a +:+ b) = free_of c a && free_of c b.
Proof.
  induction a as [|x a IH]; [done|].
  rewrite str_app_cons. simpl. by rewrite IH, andb_assoc.
Qed.

Lemma free_of_head (c x : ascii) (s : string) :
  free_of c (String x s) = true → x ≠ c.
Proof.
  simpl. intros [H _]%andb_true_iff. apply negb_true_iff in H.
  by apply Ascii.eqb_neq.
Qed.

Lemma free_of_tail (c x : ascii) (s : string) :
  free_of c (String x s) = true → free_of c s = true.
Proof. simpl. by intros [_ H]%andb_true_iff. Qed.

(** ** [str.replace] *)

Lemma replace_from_skip (old new : string) (k : nat) (s : string) :
  Str.replace_from old new k s = Str.replace_from old new 0 (Str.drop k s).
Proof.
  revert k. induction s as [|c s IH]; intros [|k]; try done.
  simpl. apply IH.
Qed.

Lemma replace_match (old new s : string) :
  old ≠ "" →
  Str.replace_from old new 0 (old +:+ s)
  = new +:+ Str.replace_from old new 0 s.
Proof.
  intros Hne. destruct old as [|c o]; [done|].
  rewrite str_app_cons. cbn [Str.replace_from].
  rewrite <- str_app_cons, prefix_app. f_equal.
  rewrite replace_from_skip. f_equal. simpl.
  rewrite Nat.sub_0_r. apply drop_app.
Qed.

Lemma replace_no_match (old new : string) (c : ascii) (s : string) :
  String.prefix old (String c s) = false →
  Str.replace_from old new 0 (String c s)
  = String c (Str.replace_from old new 0 s).
Proof. intros H. cbn [Str.replace_from]. by rewrite H. Qed.

(** ** Placeholders a substitution leaves alone *)

Ltac str_norm := repeat (rewrite str_app_cons || rewrite str_app_nil_l).
Ltac str_norm_in H := repeat (rewrite str_app_cons in H || rewrite str_app_nil_l in H).

Lemma prefix_head_ne (c x : ascii) (p s : string) :
  x ≠ c → String.prefix (String c p) (String x s) = false.
Proof.
  intros H. rewrite prefix_cons.
  assert (Ascii.eqb c x = false) as -> by (apply Ascii.eqb_neq; congruence).
  done.
Qed.

Lemma placeholder_cons (name : string) :
  placeholder name = String "{" (String "{" (name +:+ "}}")).
Proof. done. Qed.

Lemma brace_free_cons (c : ascii) (s : string) :
  brace_free (String c s) = true →
  c ≠ "{"%char ∧ c ≠ "}"%char ∧ brace_free s = true.
Proof.
  unfold brace_free. intros [H1 H2]%andb_true_iff.
  repeat split.
  - by apply free_of_head in H1.
  - by apply free_of_head in H2.
  - apply free_of_tail in H1, H2. by rewrite H1, H2.
Qed.

(** Two tokens that begin at the same place have the same name. *)
Lemma key_is_name (key name b : string) :
  brace_free key = true → brace_free name = true →
  String.prefix (key +:+ "}}") (name +:+ "}}" +:+ b) = true → key = name.
Proof.
  revert name. induction key as [|k key IH]; intros [|c name] Hk Hn H; [done|..].
  - rewrite str_app_nil_l, !str_app_cons, prefix_cons in H.
    apply brace_free_cons in Hn as (_ & Hc & _).
    apply andb_true_iff in H as [H%Ascii.eqb_eq _]. congruence.
  - rewrite str_app_nil_l, !str_app_cons, prefix_cons in H.
    apply brace_free_cons in Hk as (_ & Hc & _).
    apply andb_true_iff in H as [H%Ascii.eqb_eq _]. congruence.
  - rewrite !str_app_cons, prefix_cons in H.
    apply andb_true_iff in H as [->%Ascii.eqb_eq H].
    apply brace_free_cons in Hk as (_ & _ & Hk).
    apply brace_free_cons in Hn as (_ & _ & Hn).
    f_equal. by apply IH.
Qed.

(** No token begins inside a name or at its closing braces. *)
Lemma replace_through_name (key new name b : string) :
  brace_free name = true →
  Str.replace_from (placeholder key) new 0 (name +:+ "}}" +:+ b)
  = name +:+ "}}" +:+ Str.replace_from (placeholder key) new 0 b.
Proof.
  intros Hn. induction name as [|c name IH].
  - rewrite !str_app_nil_l, !str_app_cons, !str_app_nil_l.
    rewrite replace_no_match by (by apply prefix_head_ne).
    by rewrite replace_no_match by (by apply prefix_head_ne).
  - apply brace_free_cons in Hn as (Hc & _ & Hn).
    rewrite !(str_app_cons c name), replace_no_match by (by apply prefix_head_ne).
    by rewrite IH.
Qed.

Lemma replace_through_token (key new name b : string) :
  brace_free key = true → brace_free name = true → key ≠ name →
  Str.replace_from (placeholder key) new 0 (placeholder name +:+ b)
  = placeholder name +:+ Str.replace_from (placeholder key) new 0 b.
Proof.
  intros Hk Hn Hne.
  rewrite (placeholder_cons name), !str_app_cons, <- str_app_assoc.
  rewrite replace_no_match; cycle 1.
  { rewrite placeholder_cons, !prefix_cons. simpl.
    apply not_true_iff_false. intros H. apply Hne.
    by apply (key_is_name key name b). }
  rewrite replace_no_match; cycle 1.
  { rewrite placeholder_cons, prefix_cons. simpl.
    destruct name as [|c name].
    - by rewrite str_app_nil_l, !str_app_cons.
    - apply brace_free_cons in Hn as (Hc & _ & _).
      rewrite str_app_cons. by apply prefix_head_ne. }
  by rewrite replace_through_name, str_app_assoc.
Qed.

(** A token that begins before another one ends before it. *)
Lemma key_ends_before (key a rest : string) :
  brace_free key = true →
  String.prefix (key +:+ "}}") (a +:+ "{{" +:+ rest) = true →
  String.prefix (key +:+ "}}") a = true.
Proof.
  revert a. induction key as [|k key IH]; intros a Hk H.
  - rewrite str_app_nil_l in *.
    destruct a as [|x [|y a]]; str_norm_in H; [done| |].
    + rewrite !prefix_cons in H.
      apply andb_true_iff in H as [_ H]. by apply andb_true_iff in H as [H _].
    + rewrite !prefix_cons in H. rewrite !prefix_cons.
      apply andb_true_iff in H as [-> H]. apply andb_true_iff in H as [-> H].
      simpl. apply prefix_nil.
  - apply brace_free_cons in Hk as (Hk1 & _ & Hk).
    rewrite (str_app_cons k key) in *.
    destruct a as [|x a].
    + str_norm_in H. rewrite prefix_cons in H.
      apply andb_true_iff in H as [H%Ascii.eqb_eq _]. congruence.
    + rewrite (str_app_cons x a), prefix_cons in H. rewrite prefix_cons.
      apply andb_true_iff in H as [-> H]. simpl. by apply IH.
Qed.

Lemma token_ends_before (key a rest : string) :
  brace_free key = true → a ≠ "" →
  String.prefix (placeholder key) (a +:+ "{{" +:+ rest) = true →
  String.prefix (placeholder key) a = true.
Proof.
  intros Hk Ha H. rewrite placeholder_cons in *.
  destruct a as [|x [|y a]]; [done| |].
  - exfalso. str_norm_in H. rewrite !prefix_cons in H.
    apply andb_true_iff in H as [_ H]. apply andb_true_iff in H as [_ H].
    destruct key as [|k key].
    + by rewrite str_app_nil_l, prefix_cons in H.
    + apply brace_free_cons in Hk as (Hk1 & _ & _).
      rewrite str_app_cons, prefix_cons in H.
      apply andb_true_iff in H as [H%Ascii.eqb_eq _]. congruence.
  - rewrite (str_app_cons x), (str_app_cons y), !prefix_cons in H. rewrite !prefix_cons.
    apply andb_true_iff in H as [-> H]. apply andb_true_iff in H as [-> H].
    simpl. by apply (key_ends_before key a rest).
Qed.

Lemma replace_around_token (key new name : string) :
  brace_free key = true → brace_free name = true → key ≠ name →
  ∀ a b,
    Str.replace_from (placeholder key) new 0 (a +:+ placeholder name +:+ b)
    = Str.replace_from (placeholder key) new 0 a
      +:+ placeholder name
      +:+ Str.replace_from (placeholder key) new 0 b.
Proof.
  intros Hk Hn Hne a b.
  remember (String.length a) as n eqn:Hlen.
  revert a Hlen. induction n as [n IH] using lt_wf_ind. intros a ->.
  destruct a as [|c a].
  - change (Str.replace_from (placeholder key) new 0 "") with "".
    rewrite !str_app_nil_l. by apply replace_through_token.
  - destruct (String.prefix (placeholder key) (String c a)) eqn:Hp.
    + destruct (prefix_split _ _ Hp) as [r Hr]. rewrite Hr.
      rewrite <- str_app_assoc, !replace_match by done.
      rewrite (IH (String.length r)); [by rewrite <- str_app_assoc | | done].
      rewrite Hr, str_length_app. rewrite placeholder_cons. simpl. lia.
    + assert (String.prefix (placeholder key)
                (String c a +:+ placeholder name +:+ b) = false) as Hq.
      { apply not_true_iff_false. intros H.
        apply (token_ends_before key (String c a) ((name +:+ "}}") +:+ b))
          in H; [congruence|done..]. }
      rewrite str_app_cons in Hq |- *.
      rewrite !replace_no_match by done.
      rewrite (IH (String.length a)); [done | simpl; lia | done].
Qed.

Lemma replace_keeps_token (old key new name a b : string) :
  old = placeholder key →
  brace_free key = true → brace_free name = true → key ≠ name →
  Str.replace (a +:+ placeholder name +:+ b) old new
  = Str.replace a old new +:+ placeholder name +:+ Str.replace b old new.
Proof.
  intros -> Hk Hn Hne. unfold Str.replace. rewrite placeholder_cons.
  rewrite <- placeholder_cons. by apply replace_around_token.
Qed.

Lemma replace_all_keeps_token (name : string) (l : list (string * string)) :
  brace_free name = true →
  Forall (λ r, ∃ key, r.1 = placeholder key ∧ brace_free key = true
                      ∧ key ≠ name) l →
  ∀ a b,
    replace_all (a +:+ placeholder name +:+ b) l
    = replace_all a l +:+ placeholder name +:+ replace_all b l.
Proof.
  intros Hn. induction 1 as [|[old new] l (key & Hold & Hk & Hne) _ IH];
    intros a b; [done|].
  unfold replace_all in *. cbn [foldl]. simpl in Hold.
  rewrite (replace_keeps_token old key) by done. apply IH.
Qed.

Lemma recognized_replacements (name : string) (v : conventions_values) :
  name ∉ recognized_names →
  Forall (λ r, ∃ key, r.1 = placeholder key ∧ brace_free key = true
                      ∧ key ≠ name)
    (replacements v
     ++ [("{{SAFETY_RULES}}", ""); ("{{AGENT_CONTEXT}}", "")]).
Proof.
  intros Hnot.
  assert (∀ key, key ∈ recognized_names → key ≠ name) as Hne
    by (intros key Hin ->; contradiction).
  repeat apply Forall_cons_2; try apply Forall_nil_2;
    match goal with
    | |- ∃ key, (?old, _).1 = _ ∧ _ =>
        exists (String.substring 2 (String.length old - 4) old)
    end;
    (split; [reflexivity | split; [reflexivity |]]);
    apply Hne; apply list_elem_of_In; simpl; tauto.
Qed.

Lemma render_template_keeps_token (v : conventions_values)
    (safety_rules agent_refs name a b : string) :
  brace_free name = true → name ∉ recognized_names →
  render_template v safety_rules agent_refs (a +:+ placeholder name +:+ b)
  = render_template v safety_rules agent_refs a
    +:+ placeholder name
    +:+ render_template v safety_rules agent_refs b.
Proof.
  intros Hn Hnot. unfold render_template.
  pose proof (recognized_replacements name v Hnot) as H.
  apply Forall_app in H as [H1 H2].
  rewrite (replace_all_keeps_token name) by done.
  inversion H2 as [|? ? (k1 & E1 & B1 & N1) H3]; subst.
  inversion H3 as [|? ? (k2 & E2 & B2 & N2) _]; subst.
  simpl in E1, E2.
  rewrite (replace_keeps_token _ k1) by done.
  by rewrite (replace_keeps_token _ k2) by done.
Qed.

(** C8.  In the template path of the conventions renderer, a placeholder
    token of the template whose name is not one of the fourteen recognized
    names is not touched: when the template reads [a {{name}} b], the
    renderer raises nothing for the token and writes the rendering of [a],
    the token itself, and the rendering of [b]. *)
Theorem conventions_template_keeps_unknown_placeholder
    (title : string → string) (script_file : string) (fs : filesystem)
    (project_dir install_dir : string) (config : gmap string string)
    (name a b safety_rules agent_refs : string) :
  brace_free name = true →
  name ∉ recognized_names →
  fs (template_path script_file)
    = Some (File (Ok (a +:+ placeholder name +:+ b))) →
  _extract_safety_rules fs install_dir = Ok safety_rules →
  _build_agent_refs title fs install_dir = Ok agent_refs →
  generate_conventions title script_file fs project_dir install_dir config
  = Ok {| path := os.join project_dir ["CONVENTIONS.md"];
          content :=
            render_template (conventions_config config)
              safety_rules agent_refs a
            +:+ placeholder name
            +:+ render_template (conventions_config config)
                  safety_rules agent_refs b;
          executable := false |}.
Proof.
  intros Hn Hnot Hfs Hs Ha. unfold generate_conventions, os.isfile, os.read.
  rewrite Hfs. cbn [mbind result_bind]. rewrite Hs, Ha.
  cbn [mbind result_bind]. by rewrite render_template_keeps_token.
Qed.

Lemma conventions_template_keeps_unknown_placeholder_witness :
  generate_conventions title_ascii script
    (template_fs ("# {{CC_PROJECT_NAME}}: " +:+ placeholder "OWNER" +:+ " rules"))
    "/p" "/p/.cognitive-core" demo_config
  = Ok {| path := "/p/CONVENTIONS.md";
          content := "# demo: {{OWNER}} rules";
          executable := false |}.
Proof.
  apply (conventions_template_keeps_unknown_placeholder title_ascii script
           (template_fs ("# {{CC_PROJECT_NAME}}: " +:+ placeholder "OWNER"
                         +:+ " rules"))
           "/p" "/p/.cognitive-core" demo_config
           "OWNER" "# {{CC_PROJECT_NAME}}: " " rules"
           _default_safety_rules no_agent_docs).
  - reflexivity.
  - intros H. repeat (apply elem_of_cons in H as [H|H]; [discriminate|]).
    by apply elem_of_nil in H.
  - reflexivity.
  - reflexivity.
  - reflexivity.
Defined.

(** ** [str.split] with a separator, and lines *)

Lemma split_not_nil (s : string) (c : ascii) : Str.split s c ≠ [].
Proof. destruct s as [|x s]; simpl; [done|]. by repeat case_match. Qed.

Lemma split_free (s : string) (c : ascii) :
  free_of c s = true → Str.split s c = [s].
Proof.
  induction s as [|x s IH]; simpl; [done|].
  intros [Hx Hs]%andb_true_iff. apply negb_true_iff in Hx.
  by rewrite Hx, IH.
Qed.

Lemma split_app (a b : string) (c : ascii) :
  free_of c a = true →
  Str.split (a +:+ String c b) c = a :: Str.split b c.
Proof.
  induction a as [|x a IH].
  - intros _. rewrite str_app_nil_l. simpl. by rewrite ascii_eqb_refl.
  - cbn [free_of]. intros [Hx Ha]%andb_true_iff. apply negb_true_iff in Hx.
    rewrite str_app_cons. cbn [Str.split]. by rewrite Hx, IH.
Qed.

(** Text before a separator only adds pieces in front. *)
Lemma split_app_any (a b : string) (c : ascii) :
  ∃ pre, pre ≠ [] ∧ Str.split (a +:+ String c b) c = pre ++ Str.split b c.
Proof.
  induction a as [|x a (pre & Hpre & IH)].
  - exists [""]. rewrite str_app_nil_l. simpl. by rewrite ascii_eqb_refl.
  - rewrite str_app_cons. cbn [Str.split]. rewrite IH.
    destruct (Ascii.eqb x c); [by exists ("" :: pre)|].
    destruct pre as [|h pre]; [done|]. by exists (String x h :: pre).
Qed.

Lemma split_pieces (l : list string) (s : string) (c : ascii) :
  Forall (λ x, free_of c x = true) l →
  Str.split (Shell.cat (map (λ x, x +:+ String c "") l) +:+ s) c
  = l ++ Str.split s c.
Proof.
  induction 1 as [|x l Hx _ IH]; [done|].
  cbn [map Shell.cat]. rewrite <- !str_app_assoc. rewrite str_app_cons, str_app_nil_l.
  rewrite split_app by done. by rewrite IH.
Qed.

Lemma split_lines (l : list string) (s : string) :
  Forall (λ x, free_of (ascii_of_nat 10) x = true) l →
  Str.split (Shell.cat (map (λ x, x +:+ nl) l) +:+ s) (ascii_of_nat 10)
  = l ++ Str.split s (ascii_of_nat 10).
Proof. apply (split_pieces l s (ascii_of_nat 10)). Qed.

Lemma join_cons (sep x : string) (l : list string) :
  l ≠ [] → Str.join sep (x :: l) = x +:+ sep +:+ Str.join sep l.
Proof. by destruct l. Qed.

Lemma join_lines (l : list string) :
  l ≠ [] →
  Str.join nl l +:+ nl = Shell.cat (map (λ x, x +:+ nl) l).
Proof.
  induction l as [|x l IH]; [done|]. intros _.
  destruct l as [|y l]; [by simpl; rewrite str_app_nil_r|].
  rewrite join_cons by done. cbn [map Shell.cat] in *.
  rewrite <- IH by done. by rewrite <- !str_app_assoc.
Qed.

Lemma cat_app (l1 l2 : list string) :
  Shell.cat (l1 ++ l2) = Shell.cat l1 +:+ Shell.cat l2.
Proof.
  induction l1 as [|x l1 IH]; [done|]. simpl.
  by rewrite IH, str_app_assoc.
Qed.

(** ** load_config *)

(** C1.  [load_config] returns the empty dict, and raises nothing, when the
    path is empty, when it does not name an existing file, when the shell
    times out and when there is no [bash] to run. *)
Theorem load_config_degrades_to_empty
    (fs : filesystem) (run : list string → result string)
    (config_file : string) :
  config_file = ""
  ∨ os.isfile fs config_file = false
  ∨ run ["bash"; "-c"; load_config_cmd config_file] = Raise TimeoutExpired
  ∨ run ["bash"; "-c"; load_config_cmd config_file] = Raise FileNotFoundError →
  load_config fs run config_file = Ok ∅.
Proof.
  unfold load_config. intros [-> | [H | [H | H]]].
  - done.
  - rewrite H. by rewrite orb_true_r.
  - destruct (_ || _); [done|]. by rewrite H.
  - destruct (_ || _); [done|]. by rewrite H.
Qed.

Lemma load_config_degrades_to_empty_witness :
  load_config conf_fs (λ _, Ok "CC_X=1") "" = Ok ∅
  ∧ load_config conf_fs (λ _, Ok "CC_X=1") "/p/missing.conf" = Ok ∅
  ∧ load_config conf_fs (λ _, Raise TimeoutExpired) "/p/cognitive-core.conf"
    = Ok ∅
  ∧ load_config conf_fs (λ _, Raise FileNotFoundError) "/p/cognitive-core.conf"
    = Ok ∅.
Proof.
  split; [|split; [|split]]; apply load_config_degrades_to_empty.
  - by left.
  - right; left. reflexivity.
  - right; right; left. reflexivity.
  - right; right; right. reflexivity.
Defined.

(** ** Sorting and the documents of the agents directory *)

Lemma insert_sorted_perm (x : string) (l : list string) :
  insert_sorted x l ≡ₚ x :: l.
Proof.
  induction l as [|y l IH]; simpl; [done|].
  destruct (String.leb x y); [done|]. rewrite IH. apply Permutation_swap.
Qed.

Lemma sorted_perm (l : list string) : sorted l ≡ₚ l.
Proof.
  induction l as [|x l IH]; [done|].
  unfold sorted in *. simpl. by rewrite insert_sorted_perm, IH.
Qed.

Lemma md_files_elem (entries : list string) (f : string) :
  f ∈ md_files entries ↔ f ∈ entries ∧ Str.endswith f ".md" = true.
Proof.
  unfold md_files. rewrite list_elem_of_filter, sorted_perm. tauto.
Qed.

Lemma md_files_none (entries : list string) :
  Forall (λ f, Str.endswith f ".md" = false) entries →
  md_files entries = [].
Proof.
  intros H. destruct (md_files entries) as [|f l] eqn:E; [done|].
  assert (f ∈ md_files entries) as [Hin Hmd]%md_files_elem
    by (rewrite E; left).
  rewrite Forall_forall in H. apply H in Hin. congruence.
Qed.

(** C7.  [_build_agent_refs] returns the same sentinel message when the
    agents directory does not exist and when it exists but lists no file
    whose name ends in [.md], whatever else it lists. *)
Theorem build_agent_refs_sentinel
    (title : string → string) (fs : filesystem) (install_dir : string) :
  os.isdir fs (os.join install_dir ["agents"]) = false
  ∨ (∃ entries,
       fs (os.join install_dir ["agents"]) = Some (Dir (Ok entries))
       ∧ Forall (λ f, Str.endswith f ".md" = false) entries) →
  _build_agent_refs title fs install_dir
  = Ok "No agent documentation installed.".
Proof.
  unfold _build_agent_refs, os.isdir, os.listdir.
  intros [H | (entries & H & Hnone)].
  - by rewrite H.
  - rewrite H. cbn [negb mbind result_bind].
    by rewrite md_files_none.
Qed.

Lemma build_agent_refs_sentinel_witness :
  _build_agent_refs title_ascii no_files "/p/.cognitive-core"
  = Ok "No agent documentation installed."
  ∧ _build_agent_refs title_ascii
      (agents_fs "/p/.cognitive-core" ["README.txt"; "notes.markdown"])
      "/p/.cognitive-core"
    = Ok "No agent documentation installed."
  ∧ _build_agent_refs title_ascii (agents_fs "/p/.cognitive-core" [])
      "/p/.cognitive-core"
    = Ok "No agent documentation installed.".
Proof.
  split; [|split]; apply build_agent_refs_sentinel.
  - by left.
  - right. exists ["README.txt"; "notes.markdown"].
    split; [reflexivity | by repeat constructor].
  - right. exists []. split; [reflexivity | constructor].
Defined.

(** ** [str.split] without a separator *)

Lemma token_cons (c : ascii) (t : string) :
  token (String c t) = true → Str.isspace c = false ∧ no_space t = true.
Proof.
  unfold token. simpl. intros [Hc Ht]%andb_true_iff.
  by apply negb_true_iff in Hc.
Qed.

Lemma token_tail (c : ascii) (t : string) :
  token (String c t) = true → t ≠ "" → token t = true.
Proof.
  intros [_ Ht]%token_cons Hne. unfold token. rewrite Ht.
  by destruct t.
Qed.

Lemma split_ws_token (t : string) : token t = true → Str.split_ws t = [t].
Proof.
  induction t as [|c t IH]; [done|]. intros Ht.
  pose proof (token_cons _ _ Ht) as [Hc Hs].
  cbn [Str.split_ws]. rewrite Hc. destruct t as [|c' t]; [done|].
  pose proof (token_tail _ _ Ht) as Ht'.
  destruct (token_cons _ _ (Ht' ltac:(done))) as [-> _].
  by rewrite IH by auto.
Qed.

Lemma split_ws_token_sep (t : string) (x : ascii) (s : string) :
  token t = true → Str.isspace x = true →
  Str.split_ws (t +:+ String x s) = t :: Str.split_ws s.
Proof.
  intros Ht Hx. induction t as [|c t IH]; [done|].
  pose proof (token_cons _ _ Ht) as [Hc Hs].
  rewrite str_app_cons. cbn [Str.split_ws]. rewrite Hc.
  destruct t as [|c' t].
  - rewrite str_app_nil_l. rewrite Hx. cbn [Str.split_ws]. by rewrite Hx.
  - pose proof (token_tail _ _ Ht ltac:(done)) as Ht'.
    destruct (token_cons _ _ Ht') as [Hc' _].
    rewrite (str_app_cons c'), Hc', <- (str_app_cons c'). by rewrite IH.
Qed.

Lemma split_ws_tokens (s : string) :
  Forall (λ t, token t = true) (Str.split_ws s).
Proof.
  induction s as [|c s IH]; [constructor|].
  cbn [Str.split_ws]. destruct (Str.isspace c) eqn:Hc; [done|].
  assert (token (String c "") = true) as H1
    by (unfold token; simpl; by rewrite Hc).
  destruct s as [|c' s]; [by repeat constructor|].
  destruct (Str.isspace c') eqn:Hc'; [by constructor|].
  destruct (Str.split_ws (String c' s)) as [|h t]; [by repeat constructor|].
  inversion IH as [|? ? Hh Ht]; subst. constructor; [|done].
  unfold token in *. simpl. rewrite Hc. simpl.
  by apply andb_true_iff in Hh as [_ ->].
Qed.

(** The tokens of a list written with single spaces are its elements. *)
Lemma split_ws_join (toks : list string) :
  Forall (λ t, token t = true) toks →
  Str.split_ws (Str.join " " toks) = toks.
Proof.
  induction 1 as [|t toks Ht _ IH]; [done|].
  destruct toks as [|t' toks].
  - by apply split_ws_token.
  - rewrite join_cons by done.
    change (" " +:+ ?s) with (String " " s).
    rewrite split_ws_token_sep by done. by rewrite IH.
Qed.

(** ** generate_ignore *)

Lemma get_Some (config : gmap string string) (key dflt v : string) :
  config !! key = Some v → get config key dflt = v.
Proof. unfold get. by intros ->. Qed.

Lemma get_None (config : gmap string string) (key dflt : string) :
  config !! key = None → get config key dflt = dflt.
Proof. unfold get. by intros ->. Qed.

(** C6.  The ignore document starts with the fixed baseline.  With a
    non-empty [CC_BLOCKED_PATTERNS], an empty line, the label of the section
    and the white-space separated tokens of the value follow the baseline,
    one per line and in their order; [*.secret build/] gives the two lines
    [*.secret] and [build/]. *)
Theorem ignore_document_patterns
    (project_dir install_dir : string) (config : gmap string string) :
  (∃ extra,
     generate_ignore project_dir install_dir config
     = Ok {| path := os.join project_dir [".aiderignore"];
             content := Str.join nl (ignore_baseline ++ extra) +:+ nl;
             executable := false |}
     ∧ (config !! "CC_BLOCKED_PATTERNS" = None
        ∨ config !! "CC_BLOCKED_PATTERNS" = Some "" → extra = [])
     ∧ ∀ blocked,
         config !! "CC_BLOCKED_PATTERNS" = Some blocked → blocked ≠ "" →
         extra = [""; "# Project-specific blocked patterns"]
                   ++ Str.split_ws blocked
         ∧ Forall (λ t, token t = true) (Str.split_ws blocked)
         ∧ ∀ toks, Forall (λ t, token t = true) toks →
                   blocked = Str.join " " toks →
                   Str.split_ws blocked = toks)
  ∧ (config !! "CC_BLOCKED_PATTERNS" = Some "*.secret build/" →
     ignore_lines config
     = ignore_baseline
       ++ [""; "# Project-specific blocked patterns"; "*.secret"; "build/"]).
Proof.
  unfold generate_ignore, ignore_lines. split.
  - destruct (config !! "CC_BLOCKED_PATTERNS") as [blocked|] eqn:E.
    + rewrite (get_Some _ _ _ _ E).
      destruct (String.eqb_spec blocked "") as [->|Hne].
      * exists []. rewrite List.app_nil_r. split; [done|]. split; [done|].
        by intros ? [= <-].
      * eexists. split; [done|]. split.
        { intros [[=] | [= ->]]. done. }
        intros ? [= <-] _. split; [done|]. split; [apply split_ws_tokens|].
        intros toks Htoks ->. by apply split_ws_join.
    + rewrite (get_None _ _ _ E). exists []. rewrite List.app_nil_r.
      split; [done|]. split; [done|]. done.
  - intros E. by rewrite (get_Some _ _ _ _ E).
Qed.

Lemma ignore_document_patterns_witness :
  generate_ignore "/p" "/p/.cognitive-core" blocked_config
  = Ok {| path := "/p/.aiderignore";
          content :=
            Str.join nl
              (ignore_baseline
               ++ [""; "# Project-specific blocked patterns";
                   "*.secret"; "build/"]) +:+ nl;
          executable := false |}.
Proof.
  destruct (ignore_document_patterns "/p" "/p/.cognitive-core" blocked_config)
    as [(extra & -> & _ & H) _].
  destruct (H "*.secret build/") as (-> & _); [reflexivity | done |].
  reflexivity.
Defined.

(** ** generate_settings *)

Lemma Ok_inj {A} (a b : A) : Ok a = Ok b → a = b.
Proof. congruence. Qed.

Lemma mapM_Ok {A B} (f : A → result B) (l : list A) :
  Forall (λ x, ∃ y, f x = Ok y) l → ∃ ys, mapM f l = Ok ys.
Proof.
  induction 1 as [|x l [y Hy] _ [ys IH]]; [by exists []|].
  exists (y :: ys). cbn [mapM]. rewrite Hy. cbn [mbind result_bind].
  fold (mapM f l). by rewrite IH.
Qed.

Lemma join2_not_nil (a b : string) : b ≠ "" → os.join2 a b ≠ "".
Proof.
  intros Hb. unfold os.join2. repeat case_match; try done.
  - intros [_ ?]%str_app_eq_nil. done.
  - intros [_ [_ ?]%str_app_eq_nil]%str_app_eq_nil. done.
Qed.

Lemma endswith_not_nil (f suf : string) :
  suf ≠ "" → Str.endswith f suf = true → f ≠ "".
Proof. intros Hs H ->. destruct suf; [done | discriminate]. Qed.

Lemma settings_agent_line_Ok (cwd project_dir agents_dir f : string) :
  f ≠ "" → ∃ line, settings_agent_line cwd project_dir agents_dir f = Ok line.
Proof.
  intros Hf. unfold settings_agent_line, os.relpath. cbn [os.join foldl].
  pose proof (join2_not_nil agents_dir f Hf) as Hne.
  apply String.eqb_neq in Hne as ->.
  case_match; cbn [mbind result_bind]; eauto.
Qed.

(** The settings renderer fails only when listing the agents directory
    fails. *)
Lemma generate_settings_Ok (fs : filesystem) (cwd project_dir install_dir : string)
    (config : gmap string string) :
  os.isdir fs (os.join install_dir ["agents"]) = false
  ∨ (∃ entries, fs (os.join install_dir ["agents"]) = Some (Dir (Ok entries))) →
  ∃ doc, generate_settings fs cwd project_dir install_dir config = Ok doc.
Proof.
  intros H. unfold generate_settings, settings_lines.
  assert (∃ ls, settings_agent_lines fs cwd project_dir install_dir = Ok ls)
    as [ls ->]; [|by eexists].
  unfold settings_agent_lines, os.isdir, os.listdir in *.
  destruct H as [H | [entries H]].
  - rewrite H. by eexists.
  - rewrite H. cbn [mbind result_bind]. apply mapM_Ok.
    apply Forall_forall. intros f [_ Hmd]%md_files_elem.
    apply settings_agent_line_Ok. by apply (endswith_not_nil f ".md").
Qed.

Lemma generate_settings_content (fs : filesystem)
    (cwd project_dir install_dir : string) (config : gmap string string)
    (doc : RenderedDocument) :
  generate_settings fs cwd project_dir install_dir config = Ok doc →
  ∃ agent_lines,
    settings_agent_lines fs cwd project_dir install_dir = Ok agent_lines
    ∧ content doc
      = Shell.cat (map (λ x, x +:+ nl) (settings_head config))
        +:+ Shell.cat (map (λ x, x +:+ nl) agent_lines).
Proof.
  unfold generate_settings, settings_lines.
  destruct (settings_agent_lines _ _ _ _) as [ls|e]; [|done].
  cbn [mbind result_bind]. intros <-%Ok_inj. exists ls. split; [done|].
  cbn [content]. rewrite join_lines by done. by rewrite map_app, cat_app.
Qed.

Lemma settings_head_default_model (config : gmap string string) :
  config !! "CC_AIDER_MODEL" = None →
  ∃ a b,
    Shell.cat (map (λ x, x +:+ nl) (settings_head config))
    = a +:+ nl
      +:+ "model: ollama_chat/qwen2.5-coder:32b" +:+ nl
      +:+ "editor-model: ollama_chat/qwen2.5-coder:32b" +:+ nl
      +:+ b.
Proof.
  intros Hm. unfold settings_head. rewrite (get_None _ _ _ Hm).
  cbn [map Shell.cat].
  exists ("# cognitive-core generated Aider configuration" +:+ nl
          +:+ "# Platform: aider + ollama" +:+ nl
          +:+ "# Project: " +:+ get config "CC_PROJECT_NAME" "project" +:+ nl
          +:+ "" +:+ nl
          +:+ "# Model configuration").
  eexists. rewrite <- !str_app_assoc. reflexivity.
Qed.

(** C5.  With the configuration [{CC_PROJECT_NAME: demo, CC_AIDER_MODEL:
    llama3}] the settings document has the line of the model and the line
    of the editor model, both naming [llama3], and its read list begins
    with [CONVENTIONS.md]; whenever [CC_AIDER_MODEL] is unset both lines
    name the default model.  The document is produced whenever listing the
    agents directory does not fail. *)
Theorem settings_document_model_lines
    (fs : filesystem) (cwd project_dir install_dir : string)
    (config : gmap string string) :
  (os.isdir fs (os.join install_dir ["agents"]) = false
   ∨ (∃ entries, fs (os.join install_dir ["agents"]) = Some (Dir (Ok entries))) →
   ∃ doc, generate_settings fs cwd project_dir install_dir config = Ok doc)
  ∧ ∀ doc,
      generate_settings fs cwd project_dir install_dir config = Ok doc →
      (config = demo_config →
       ∃ rest,
         Str.split (content doc) (ascii_of_nat 10)
         = [ "# cognitive-core generated Aider configuration";
             "# Platform: aider + ollama";
             "# Project: demo";
             "";
             "# Model configuration";
             "model: ollama_chat/llama3";
             "editor-model: ollama_chat/llama3";
             "";
             "# Edit format";
             "edit-format: diff";
             "";
             "# Auto-lint after edits";
             "auto-lint: true";
             "lint-cmd: echo no-lint";
             "";
             "# Auto-test after edits";
             "auto-test: false";
             "test-cmd: echo no-tests";
             "";
             "# Read-only context files (always in context)";
             "read:";
             "  - CONVENTIONS.md" ] ++ rest)
      ∧ (config !! "CC_AIDER_MODEL" = None →
         ∃ pre post,
           Str.split (content doc) (ascii_of_nat 10)
           = pre ++ [ "model: ollama_chat/qwen2.5-coder:32b";
                      "editor-model: ollama_chat/qwen2.5-coder:32b" ]
                 ++ post).
Proof.
  split; [apply generate_settings_Ok|].
  intros doc (agent_lines & _ & Hc)%generate_settings_content. split.
  - intros ->. rewrite Hc. eexists.
    rewrite split_lines; [reflexivity|]. by repeat constructor.
  - intros (a & b & Hhead)%settings_head_default_model.
    set (agents := Shell.cat (map (λ x, x +:+ nl) agent_lines)) in *.
    assert (content doc
            = a +:+ String (ascii_of_nat 10)
                ("model: ollama_chat/qwen2.5-coder:32b"
                 +:+ String (ascii_of_nat 10)
                       ("editor-model: ollama_chat/qwen2.5-coder:32b"
                        +:+ String (ascii_of_nat 10) (b +:+ agents)))) as ->.
    { rewrite Hc, Hhead. rewrite <- !str_app_assoc. reflexivity. }
    destruct (split_app_any a
                ("model: ollama_chat/qwen2.5-coder:32b"
                 +:+ String (ascii_of_nat 10)
                       ("editor-model: ollama_chat/qwen2.5-coder:32b"
                        +:+ String (ascii_of_nat 10) (b +:+ agents)))
                (ascii_of_nat 10)) as (pre & _ & ->).
    exists pre, (Str.split (b +:+ agents) (ascii_of_nat 10)).
    by rewrite !split_app by done.
Qed.

Lemma settings_document_model_lines_witness :
  (∃ doc rest,
     generate_settings (agents_fs "/p/.cognitive-core" ["reviewer.md"])
       "/home/dev" "/p" "/p/.cognitive-core" demo_config = Ok doc
     ∧ Str.split (content doc) (ascii_of_nat 10)
       = [ "# cognitive-core generated Aider configuration";
           "# Platform: aider + ollama";
           "# Project: demo";
           "";
           "# Model configuration";
           "model: ollama_chat/llama3";
           "editor-model: ollama_chat/llama3";
           "";
           "# Edit format";
           "edit-format: diff";
           "";
           "# Auto-lint after edits";
           "auto-lint: true";
           "lint-cmd: echo no-lint";
           "";
           "# Auto-test after edits";
           "auto-test: false";
           "test-cmd: echo no-tests";
           "";
           "# Read-only context files (always in context)";
           "read:";
           "  - CONVENTIONS.md" ] ++ rest)
  ∧ (∃ doc pre post,
       generate_settings no_files "/home/dev" "/p" "/p/.cognitive-core" ∅
       = Ok doc
       ∧ Str.split (content doc) (ascii_of_nat 10)
         = pre ++ [ "model: ollama_chat/qwen2.5-coder:32b";
                    "editor-model: ollama_chat/qwen2.5-coder:32b" ]
               ++ post).
Proof.
  split.
  - destruct (settings_document_model_lines
                (agents_fs "/p/.cognitive-core" ["reviewer.md"])
                "/home/dev" "/p" "/p/.cognitive-core" demo_config) as [Hok H].
    destruct Hok as [doc Hdoc]; [right; eexists; reflexivity|].
    destruct (H doc Hdoc) as [H1 _]. destruct (H1 eq_refl) as [rest Hr].
    by exists doc, rest.
  - destruct (settings_document_model_lines
                no_files "/home/dev" "/p" "/p/.cognitive-core" ∅) as [Hok H].
    destruct Hok as [doc Hdoc]; [left; reflexivity|].
    destruct (H doc Hdoc) as [_ H2].
    destruct (H2 (lookup_empty _)) as (pre & post & Hr).
    by exists doc, pre, post.
Defined.

(** ** The pattern of the safety rules *)

Lemma match_here_lits (m : string) (p : list Re.atom) (g s : string) :
  Re.match_here (Re.lits m ++ p) g s
  = if String.prefix m s
    then Re.match_here p g (Str.drop (String.length m) s)
    else None.
Proof.
  revert s. induction m as [|c m IH]; intros s.
  - by rewrite prefix_nil, drop_0.
  - destruct s as [|x s]; [done|].
    cbn [Re.lits app Re.match_here]. rewrite prefix_cons, Ascii.eqb_sym.
    destruct (Ascii.eqb c x); [by rewrite IH | done].
Qed.

Lemma match_here_marker (g s : string) :
  Re.match_here reason_pattern g s
  = if String.prefix reason_marker s
    then Re.match_here
           [Re.Star Re.space_class; Re.GroupLazyPlus Re.dot_class;
            Re.Lit (ascii_of_nat 34)]
           g (Str.drop (String.length reason_marker) s)
    else None.
Proof. apply match_here_lits. Qed.

Lemma contains_cons (sub : string) (c : ascii) (s : string) :
  Str.contains sub (String c s) = false →
  String.prefix sub (String c s) = false ∧ Str.contains sub s = false.
Proof. cbn [Str.contains]. by intros ?%orb_false_iff. Qed.

(** A text without the marker has no match. *)
Lemma finditer_from_no_marker (skip pos : nat) (s : string) :
  Str.contains reason_marker s = false →
  Re.finditer_from reason_pattern skip pos s = [].
Proof.
  revert skip pos. induction s as [|c s IH]; intros skip pos H.
  - by destruct skip.
  - apply contains_cons in H as [Hp Hs]. cbn [Re.finditer_from].
    destruct skip; [|by apply IH].
    rewrite match_here_marker, Hp. by apply IH.
Qed.

Lemma finditer_no_marker (s : string) :
  Str.contains reason_marker s = false →
  Re.finditer reason_pattern s = [].
Proof. apply finditer_from_no_marker. Qed.

Lemma greedy_star_space {R} (k : string → option R) (s : string) (r : R) :
  Re.greedy_star Re.space_class k s = Some r →
  ∃ ws rest, s = ws +:+ rest ∧ all_space ws = true ∧ k rest = Some r.
Proof.
  induction s as [|c s IH]; cbn [Re.greedy_star].
  - intros H. by exists "", "".
  - destruct (Re.space_class c) eqn:Hc; [|intros H; by exists "", (String c s)].
    destruct (Re.greedy_star Re.space_class k s) as [r'|] eqn:E.
    + intros [= <-]. destruct (IH eq_refl) as (ws & rest & -> & Hws & Hk).
      exists (String c ws), rest. split; [done|]. split; [|done].
      cbn [all_space]. by rewrite Hws, andb_true_r.
    + intros H. by exists "", (String c s).
Qed.

Lemma lazy_more_dot {R} (k : string → string → option R) (acc s : string)
    (r : R) :
  Re.lazy_more Re.dot_class k acc s = Some r →
  ∃ g rest, s = g +:+ rest ∧ free_of (ascii_of_nat 10) g = true
            ∧ k (acc +:+ g) rest = Some r.
Proof.
  revert acc. induction s as [|c s IH]; intros acc; cbn [Re.lazy_more].
  - destruct (k acc "") eqn:E; [|done]. intros [= <-].
    exists "", "". by rewrite (str_app_nil_r acc), E.
  - destruct (k acc (String c s)) eqn:E.
    { intros [= <-]. exists "", (String c s).
      by rewrite (str_app_nil_r acc), E. }
    destruct (Re.dot_class c) eqn:Hc; [|done].
    intros (g & rest & -> & Hg & Hk)%IH.
    exists (String c g), rest. split; [done|]. split.
    + cbn [free_of]. by rewrite Hg, andb_true_r.
    + by rewrite <- str_app_assoc in Hk.
Qed.

Lemma lazy_plus_dot {R} (k : string → string → option R) (s : string) (r : R) :
  Re.lazy_plus Re.dot_class k s = Some r →
  ∃ g rest, s = g +:+ rest ∧ g ≠ "" ∧ free_of (ascii_of_nat 10) g = true
            ∧ k g rest = Some r.
Proof.
  destruct s as [|c s]; [done|]. cbn [Re.lazy_plus].
  destruct (Re.dot_class c) eqn:Hc; [|done].
  intros (g & rest & -> & Hg & Hk)%lazy_more_dot.
  exists (String c g), rest. split; [done|]. split; [done|]. split; [|done].
  cbn [free_of]. by rewrite Hg, andb_true_r.
Qed.

(** What a match of the pattern at the head of a text says of the text. *)
Lemma match_here_sound (s g rest : string) :
  Re.match_here reason_pattern "" s = Some (g, rest) →
  ∃ ws, s = reason_marker +:+ ws +:+ g +:+ dq +:+ rest
        ∧ all_space ws = true ∧ g ≠ ""
        ∧ free_of (ascii_of_nat 10) g = true.
Proof.
  rewrite match_here_marker.
  destruct (String.prefix reason_marker s) eqn:Hp; [|done].
  apply prefix_split in Hp as [t ->]. rewrite drop_app.
  cbn [Re.match_here].
  intros (ws & t' & -> & Hws & H)%greedy_star_space.
  apply lazy_plus_dot in H as (g' & t'' & -> & Hne & Hfree & H).
  cbn [Re.match_here] in H. destruct t'' as [|x t'']; [done|].
  destruct (Ascii.eqb_spec x (ascii_of_nat 34)) as [->|]; [|done].
  injection H as <- <-. by exists ws.
Qed.

Lemma in_order_weaken (a b : nat) (ms : list Re.re_match) :
  a ≤ b → in_order b ms → in_order a ms.
Proof.
  destruct ms as [|m ms]; [done|]. simpl. intros ? (? & ? & ?).
  split; [lia|]. by split.
Qed.

Lemma match_here_nil : Re.match_here reason_pattern "" "" = None.
Proof. reflexivity. Qed.

(** The matches [finditer] returns lie in the text where it says, one
    after the other. *)
Lemma finditer_from_sound (full : string) (s : string) :
  ∀ skip pos pre,
    full = pre +:+ s → String.length pre = pos →
    Forall (occurrence full) (Re.finditer_from reason_pattern skip pos s)
    ∧ in_order (pos + skip) (Re.finditer_from reason_pattern skip pos s).
Proof.
  induction s as [|c s IH]; intros skip pos pre Hfull Hpos.
  - cbn [Re.finditer_from]. rewrite match_here_nil. by destruct skip.
  - assert (full = (pre +:+ String c "") +:+ s) as Hfull'
      by (by rewrite <- str_app_assoc).
    assert (String.length (pre +:+ String c "") = S pos) as Hpos'
      by (rewrite str_length_app; simpl; lia).
    cbn [Re.finditer_from]. destruct skip as [|k].
    + destruct (Re.match_here reason_pattern "" (String c s))
        as [[g rest]|] eqn:E.
      * destruct (match_here_sound _ _ _ E) as (ws & Hs & Hws & Hg & Hfree).
        assert (String.length (String c s) - String.length rest
                = String.length (reason_marker +:+ ws +:+ g +:+ dq)) as Hlen.
        { rewrite Hs, !str_length_app. lia. }
        rewrite Hlen.
        destruct (IH (String.length (reason_marker +:+ ws +:+ g +:+ dq) - 1)
                    (S pos) _ Hfull' Hpos') as [IH1 IH2].
        assert (0 < String.length (reason_marker +:+ ws +:+ g +:+ dq)) as Hpos0
          by (rewrite str_length_app; simpl; lia).
        split.
        -- constructor; [|done]. exists pre, ws, rest. cbn.
           split; [|done]. by rewrite Hfull, Hs.
        -- cbn. split; [lia|]. split; [lia|].
           eapply in_order_weaken; [|exact IH2]. lia.
      * destruct (IH 0 (S pos) _ Hfull' Hpos') as [IH1 IH2].
        split; [done|]. eapply in_order_weaken; [|exact IH2]. lia.
    + destruct (IH k (S pos) _ Hfull' Hpos') as [IH1 IH2].
      split; [done|]. eapply in_order_weaken; [|exact IH2]. lia.
Qed.

Lemma finditer_sound (content : string) :
  Forall (occurrence content) (Re.finditer reason_pattern content)
  ∧ in_order 0 (Re.finditer reason_pattern content).
Proof. by apply (finditer_from_sound content content 0 0 ""). Qed.

(** ** The safety rules *)

Lemma join_not_nil (sep x : string) (l : list string) :
  x ≠ "" → Str.join sep (x :: l) ≠ "".
Proof.
  intros Hx. destruct l as [|y l]; [done|].
  rewrite join_cons by done. by intros [? _]%str_app_eq_nil.
Qed.

Lemma extract_safety_rules_not_empty (fs : filesystem) (install_dir s : string) :
  _extract_safety_rules fs install_dir = Ok s → s ≠ "".
Proof.
  unfold _extract_safety_rules.
  destruct (negb _); [by intros [= <-]|].
  destruct (os.read _ _) as [content|e].
  - destruct (Re.finditer reason_pattern content) as [|m ms];
      cbn [map]; [by intros [= <-]|].
    intros <-%Ok_inj. by apply join_not_nil.
  - destruct (_ || _); [by intros [= <-] | done].
Qed.

(** C2.  When the hook file is absent, when reading it raises an [OSError]
    or a [UnicodeDecodeError], and when its text has no match of the
    pattern, [_extract_safety_rules] returns the built-in rules, which are
    twelve lines; and whatever it returns is never the empty text. *)
Theorem extract_safety_rules_default
    (fs : filesystem) (install_dir : string) :
  let hook_path := os.join install_dir ["hooks"; "validate-bash.sh"] in
  os.isfile fs hook_path = false
  ∨ (∃ e, fs hook_path = Some (File (Raise e))
          ∧ (is_OSError e = true ∨ e = UnicodeDecodeError))
  ∨ (∃ content, fs hook_path = Some (File (Ok content))
                ∧ Re.finditer reason_pattern content = []) →
  _extract_safety_rules fs install_dir = Ok _default_safety_rules
  ∧ length (Str.split _default_safety_rules (ascii_of_nat 10)) = 12
  ∧ Forall (λ rule, Str.startswith rule "- NEVER " = true)
      (Str.split _default_safety_rules (ascii_of_nat 10))
  ∧ ∀ fs' install_dir' s,
      _extract_safety_rules fs' install_dir' = Ok s → s ≠ "".
Proof.
  intros hook_path H. split; [|split; [reflexivity|split]].
  - unfold _extract_safety_rules, os.isfile, os.read in *. fold hook_path.
    destruct H as [H | [(e & H & He) | (content & H & Hnone)]].
    + by rewrite H.
    + rewrite H. cbn [negb]. destruct He as [-> | ->]; [done|]. done.
    + rewrite H. cbn [negb]. by rewrite Hnone.
  - let l := eval vm_compute in
             (Str.split _default_safety_rules (ascii_of_nat 10)) in
    change (Str.split _default_safety_rules (ascii_of_nat 10)) with l.
    repeat (constructor; [reflexivity|]). constructor.
  - apply extract_safety_rules_not_empty.
Qed.

Lemma extract_safety_rules_default_witness :
  _extract_safety_rules no_files "/p/.cognitive-core" = Ok _default_safety_rules
  ∧ _extract_safety_rules
      (with_node "/p/.cognitive-core/hooks/validate-bash.sh"
         (File (Raise UnicodeDecodeError)) no_files)
      "/p/.cognitive-core"
    = Ok _default_safety_rules
  ∧ _extract_safety_rules
      (with_node "/p/.cognitive-core/hooks/validate-bash.sh"
         (File (Raise PermissionError)) no_files)
      "/p/.cognitive-core"
    = Ok _default_safety_rules
  ∧ _extract_safety_rules
      (hook_fs "#!/bin/bash
# Blocked: nothing is quoted here
exit 0
")
      "/p/.cognitive-core"
    = Ok _default_safety_rules.
Proof.
  split; [|split; [|split]];
    apply extract_safety_rules_default.
  - by left.
  - right; left. exists UnicodeDecodeError. split; [reflexivity | by right].
  - right; left. exists PermissionError. split; [reflexivity | by left].
  - right; right. eexists. split; [reflexivity|].
    by apply finditer_no_marker.
Defined.

(** ** Hook texts written one marker per line *)

Lemma lstrip_length (s : string) :
  String.length (Str.lstrip s) ≤ String.length s.
Proof.
  induction s as [|c s IH]; [done|]. cbn [Str.lstrip].
  destruct (Str.isspace c); simpl; lia.
Qed.

Lemma rstrip_length (s : string) :
  String.length (Str.rstrip s) ≤ String.length s.
Proof.
  induction s as [|c s IH]; [done|]. cbn [Str.rstrip].
  destruct (Str.rstrip s); [destruct (Str.isspace c)|]; simpl in *; lia.
Qed.

Lemma strip_fixed_head (c : ascii) (s : string) :
  Str.strip (String c s) = String c s → Str.isspace c = false.
Proof.
  unfold Str.strip. cbn [Str.lstrip].
  destruct (Str.isspace c); [|done]. intros H.
  pose proof (rstrip_length (Str.lstrip s)) as H1.
  pose proof (lstrip_length s) as H2.
  rewrite H in H1. simpl in H1. lia.
Qed.

Lemma plain_reason_parts (r : string) :
  plain_reason r = true →
  r ≠ "" ∧ free_of (ascii_of_nat 10) r = true
  ∧ free_of (ascii_of_nat 34) r = true ∧ Str.strip r = r.
Proof.
  unfold plain_reason.
  intros [[[H1 H2]%andb_true_iff H3]%andb_true_iff H4]%andb_true_iff.
  apply negb_true_iff, String.eqb_neq in H1. by apply String.eqb_eq in H4.
Qed.

Lemma lazy_more_to_quote (r acc rest : string) :
  free_of (ascii_of_nat 10) r = true → free_of (ascii_of_nat 34) r = true →
  Re.lazy_more Re.dot_class (Re.match_here [Re.Lit (ascii_of_nat 34)]) acc
    (r +:+ dq +:+ rest)
  = Some (acc +:+ r, rest).
Proof.
  revert acc. induction r as [|c r IH]; intros acc Hn Hq.
  - rewrite str_app_nil_l, str_app_nil_r. reflexivity.
  - pose proof (free_of_head _ _ _ Hn) as Hc1.
    pose proof (free_of_head _ _ _ Hq) as Hc2.
    apply free_of_tail in Hn, Hq.
    rewrite str_app_cons. cbn [Re.lazy_more Re.match_here].
    apply Ascii.eqb_neq in Hc1, Hc2. unfold Re.dot_class.
    rewrite Hc1, Hc2. cbn [negb]. rewrite IH by done.
    by rewrite <- str_app_assoc.
Qed.

(** The pattern matches a marker line up to its closing quote. *)
Lemma match_here_marker_line (r rest : string) :
  plain_reason r = true →
  Re.match_here reason_pattern ""
    (reason_marker +:+ " " +:+ r +:+ dq +:+ rest)
  = Some (r, rest).
Proof.
  intros (Hne & Hn & Hq & Hs)%plain_reason_parts.
  rewrite match_here_marker, prefix_app, drop_app.
  destruct r as [|c r]; [done|].
  pose proof (strip_fixed_head _ _ Hs) as Hc.
  pose proof (free_of_head _ _ _ Hn) as Hc1. apply Ascii.eqb_neq in Hc1.
  apply free_of_tail in Hn, Hq.
  change (" " +:+ ?s) with (String " " s). rewrite str_app_cons.
  cbn [Re.match_here Re.greedy_star].
  change (Re.space_class " ") with true. cbn iota.
  unfold Re.space_class at 1. rewrite Hc.
  cbn [Re.lazy_plus]. unfold Re.dot_class at 1. rewrite Hc1. cbn [negb].
  by rewrite lazy_more_to_quote.
Qed.

Lemma finditer_from_skip (p : list Re.atom) (k pos : nat) (s : string) :
  k ≤ String.length s →
  Re.finditer_from p k pos s = Re.finditer_from p 0 (pos + k) (Str.drop k s).
Proof.
  revert k pos. induction s as [|c s IH]; intros [|k] pos Hk;
    simpl in Hk; try lia.
  - by rewrite Nat.add_0_r.
  - by rewrite Nat.add_0_r, drop_0.
  - cbn [Re.finditer_from Str.drop]. rewrite IH by lia. f_equal. lia.
Qed.

(** After a match the search goes on behind it. *)
Lemma finditer_from_match (p : list Re.atom) (pos : nat)
    (x g rest : string) :
  x ≠ "" →
  Re.match_here p "" (x +:+ rest) = Some (g, rest) →
  Re.finditer_from p 0 pos (x +:+ rest)
  = {| Re.m_start := pos; Re.m_end := pos + String.length x;
       Re.group1 := g |}
      :: Re.finditer_from p 0 (pos + String.length x) rest.
Proof.
  intros Hx H. destruct x as [|c x]; [done|].
  rewrite str_app_cons in *. cbn [Re.finditer_from]. rewrite H.
  assert (String.length (String c (x +:+ rest)) - String.length rest
          = S (String.length x)) as ->
    by (simpl; rewrite str_length_app; lia).
  f_equal. rewrite finditer_from_skip by (rewrite str_length_app; simpl; lia).
  simpl. rewrite Nat.sub_0_r, drop_app. f_equal. lia.
Qed.

Lemma finditer_hook_text (reasons : list string) (pos : nat) :
  Forall (λ r, plain_reason r = true) reasons →
  map Re.group1 (Re.finditer_from reason_pattern 0 pos (hook_text reasons))
  = reasons.
Proof.
  intros H. revert pos. induction H as [|r rs Hr _ IH]; intros pos; [done|].
  unfold hook_text in *. cbn [map Shell.cat]. unfold marker_line at 1.
  assert (((reason_marker +:+ " " +:+ r +:+ dq +:+ nl)
           +:+ Shell.cat (map marker_line rs))
          = (reason_marker +:+ " " +:+ r +:+ dq)
            +:+ String (ascii_of_nat 10) (Shell.cat (map marker_line rs)))
    as -> by (by rewrite <- !str_app_assoc).
  rewrite (finditer_from_match _ _ _ r); cycle 1.
  { done. }
  { rewrite <- !str_app_assoc. by apply match_here_marker_line. }
  cbn [map Re.group1]. f_equal.
  cbn [Re.finditer_from]. rewrite match_here_marker.
  change (String.prefix reason_marker (String (ascii_of_nat 10) ?s))
    with false. cbn iota. apply IH.
Qed.

Lemma map_rule_of_match (ms : list Re.re_match) :
  Forall (λ r, Str.strip r = r) (map Re.group1 ms) →
  map rule_of_match ms = map (λ r, "- NEVER: " +:+ r) (map Re.group1 ms).
Proof.
  induction ms as [|m ms IH]; [done|]. cbn [map].
  intros [Hm Hms]%Forall_cons. unfold rule_of_match at 1.
  by rewrite Hm, IH.
Qed.

(** C3, as the code has it.  When the hook text has a match,
    [_extract_safety_rules] returns one line [- NEVER: reason] per match,
    the reason stripped of surrounding white space, joined by line feeds,
    in the order of the matches; the matches lie in the text one after the
    other, each a marker, white space, a reason on one line and a quote.
    For the two markers [rm -rf /] and [force push] the result is
    [- NEVER: rm -rf /] and [- NEVER: force push] on two lines, and for any
    text of marker lines with plain reasons it is the bulleted reasons in
    the order of the lines. *)
Theorem extract_safety_rules_in_order
    (fs : filesystem) (install_dir content : string) :
  fs (os.join install_dir ["hooks"; "validate-bash.sh"])
    = Some (File (Ok content)) →
  Re.finditer reason_pattern content ≠ [] →
  _extract_safety_rules fs install_dir
    = Ok (Str.join nl
            (map (λ m, "- NEVER: " +:+ Str.strip (Re.group1 m))
               (Re.finditer reason_pattern content)))
  ∧ Forall (occurrence content) (Re.finditer reason_pattern content)
  ∧ in_order 0 (Re.finditer reason_pattern content)
  ∧ (content = two_markers →
     _extract_safety_rules fs install_dir
     = Ok ("- NEVER: rm -rf /" +:+ nl +:+ "- NEVER: force push"))
  ∧ (∀ reasons,
       Forall (λ r, plain_reason r = true) reasons →
       content = hook_text reasons →
       _extract_safety_rules fs install_dir
       = Ok (Str.join nl (map (λ r, "- NEVER: " +:+ r) reasons))).
Proof.
  intros Hfs Hms.
  assert (_extract_safety_rules fs install_dir
          = Ok (Str.join nl
                  (map rule_of_match (Re.finditer reason_pattern content))))
    as Hres.
  { unfold _extract_safety_rules, os.isfile, os.read. rewrite Hfs.
    cbn [negb]. destruct (Re.finditer reason_pattern content); done. }
  split; [exact Hres|]. split; [apply finditer_sound|].
  split; [apply finditer_sound|]. split.
  - intros ->. rewrite Hres. reflexivity.
  - intros reasons Hplain ->. rewrite Hres. do 2 f_equal.
    rewrite map_rule_of_match; unfold Re.finditer;
      rewrite finditer_hook_text by done; [done|].
    eapply Forall_impl; [exact Hplain|].
    by intros r (_ & _ & _ & ?)%plain_reason_parts.
Qed.

Lemma extract_safety_rules_in_order_witness :
  _extract_safety_rules (hook_fs two_markers) "/p/.cognitive-core"
  = Ok ("- NEVER: rm -rf /" +:+ nl +:+ "- NEVER: force push")
  ∧ _extract_safety_rules
      (hook_fs (hook_text ["rm -rf /"; "force push"; "chmod 777"]))
      "/p/.cognitive-core"
    = Ok (Str.join nl
            ["- NEVER: rm -rf /"; "- NEVER: force push"; "- NEVER: chmod 777"]).
Proof.
  split.
  - destruct (extract_safety_rules_in_order (hook_fs two_markers)
                "/p/.cognitive-core" two_markers) as (_ & _ & _ & H & _);
      [reflexivity | by vm_compute |]. by apply H.
  - destruct (extract_safety_rules_in_order
                (hook_fs (hook_text ["rm -rf /"; "force push"; "chmod 777"]))
                "/p/.cognitive-core"
                (hook_text ["rm -rf /"; "force push"; "chmod 777"]))
      as (_ & _ & _ & _ & H); [reflexivity | by vm_compute |].
    apply (H ["rm -rf /"; "force push"; "chmod 777"]);
      [by repeat constructor | done].
Defined.

(** C3, as the specification words it: the two rules are not returned
    bare.  On the two markers the result is neither the lines
    [NEVER: rm -rf /] and [NEVER: force push] nor their join. *)
Lemma extract_safety_rules_not_bare :
  ¬ ∃ s,
      _extract_safety_rules (hook_fs two_markers) "/p/.cognitive-core" = Ok s
      ∧ (Str.split s (ascii_of_nat 10)
         = ["NEVER: rm -rf /"; "NEVER: force push"]
         ∨ s = Str.join nl ["NEVER: rm -rf /"; "NEVER: force push"]).
Proof.
  intros (s & H & Hs).
  assert (_extract_safety_rules (hook_fs two_markers) "/p/.cognitive-core"
          = Ok ("- NEVER: rm -rf /" +:+ nl +:+ "- NEVER: force push")) as E
    by reflexivity.
  rewrite E in H. apply Ok_inj in H as <-.
  destruct Hs as [Hs | Hs]; vm_compute in Hs; discriminate.
Qed.

(** ** What the renderers read *)

Lemma extract_safety_rules_reads (fs1 fs2 : filesystem) (install_dir : string) :
  fs1 (os.join install_dir ["hooks"; "validate-bash.sh"])
    = fs2 (os.join install_dir ["hooks"; "validate-bash.sh"]) →
  _extract_safety_rules fs1 install_dir = _extract_safety_rules fs2 install_dir.
Proof.
  intros H. unfold _extract_safety_rules, os.isfile, os.read. by rewrite H.
Qed.

Lemma build_agent_refs_reads (title : string → string)
    (fs1 fs2 : filesystem) (install_dir : string) :
  fs1 (os.join install_dir ["agents"]) = fs2 (os.join install_dir ["agents"]) →
  _build_agent_refs title fs1 install_dir
  = _build_agent_refs title fs2 install_dir.
Proof.
  intros H. unfold _build_agent_refs, os.isdir, os.listdir. by rewrite H.
Qed.

Lemma generate_settings_reads (fs1 fs2 : filesystem)
    (cwd project_dir install_dir : string) (config : gmap string string) :
  fs1 (os.join install_dir ["agents"]) = fs2 (os.join install_dir ["agents"]) →
  generate_settings fs1 cwd project_dir install_dir config
  = generate_settings fs2 cwd project_dir install_dir config.
Proof.
  intros H.
  unfold generate_settings, settings_lines, settings_agent_lines,
    os.isdir, os.listdir.
  by rewrite H.
Qed.

Lemma generate_conventions_reads (title : string → string)
    (script_file : string) (fs1 fs2 : filesystem)
    (project_dir install_dir : string) (config : gmap string string) :
  fs1 (template_path script_file) = fs2 (template_path script_file) →
  fs1 (os.join install_dir ["hooks"; "validate-bash.sh"])
    = fs2 (os.join install_dir ["hooks"; "validate-bash.sh"]) →
  fs1 (os.join install_dir ["agents"]) = fs2 (os.join install_dir ["agents"]) →
  generate_conventions title script_file fs1 project_dir install_dir config
  = generate_conventions title script_file fs2 project_dir install_dir config.
Proof.
  intros Ht Hh Ha. unfold generate_conventions, os.isfile, os.read.
  rewrite Ht, (extract_safety_rules_reads fs1 fs2 _ Hh).
  by rewrite (build_agent_refs_reads title fs1 fs2 _ Ha).
Qed.

(** C4.  What each of the four renderers writes is fixed by its arguments,
    the working directory and three places of the file system: the
    template, the hook file and the agents directory.  Two runs that see
    the same configuration and the same of these write the same path, the
    same text and the same permission flag, whatever else differs; nothing
    of a clock or of a random source enters the text. *)
Theorem renderers_deterministic
    (title : string → string) (script_file : string) (m : mode)
    (fs1 fs2 : filesystem) (cwd project_dir install_dir : string)
    (config : gmap string string) :
  fs1 (template_path script_file) = fs2 (template_path script_file) →
  fs1 (os.join install_dir ["hooks"; "validate-bash.sh"])
    = fs2 (os.join install_dir ["hooks"; "validate-bash.sh"]) →
  fs1 (os.join install_dir ["agents"]) = fs2 (os.join install_dir ["agents"]) →
  generators title script_file m fs1 cwd project_dir install_dir config
  = generators title script_file m fs2 cwd project_dir install_dir config.
Proof.
  intros Ht Hh Ha. destruct m; cbn [generators].
  - by apply generate_settings_reads.
  - by apply generate_conventions_reads.
  - done.
  - done.
Qed.

Lemma renderers_deterministic_witness :
  generators title_ascii script conventions (hook_fs two_markers)
    "/home/dev" "/p" "/p/.cognitive-core" demo_config
  = generators title_ascii script conventions
      (with_node "/p/CONVENTIONS.md" (File (Ok "an earlier run"))
         (hook_fs two_markers))
      "/home/dev" "/p" "/p/.cognitive-core" demo_config
  ∧ generators title_ascii script settings
      (agents_fs "/p/.cognitive-core" ["reviewer.md"])
      "/home/dev" "/p" "/p/.cognitive-core" demo_config
    = generators title_ascii script settings
        (with_node "/p/.aider.conf.yml" (File (Ok "an earlier run"))
           (agents_fs "/p/.cognitive-core" ["reviewer.md"]))
        "/home/dev" "/p" "/p/.cognitive-core" demo_config.
Proof.
  split; apply renderers_deterministic; reflexivity.
Defined.

(** ** The environment the shell inherits *)

Lemma assign_keeps_names (env : Shell.environment) (name value k : string) :
  k ∈ map fst env → k ∈ map fst (Shell.assign env name value).
Proof.
  induction env as [|[n v] env IH]; cbn [Shell.assign map fst].
  - by intros ?%elem_of_nil.
  - intros [->|H]%elem_of_cons; destruct (String.eqb n name);
      cbn [map fst]; try (by left); right; [done | by apply IH].
Qed.

Lemma source_keeps_names (env : Shell.environment)
    (assignments : list (string * string)) (k : string) :
  k ∈ map fst env → k ∈ map fst (Shell.source env assignments).
Proof.
  revert env. induction assignments as [|[n v] l IH]; intros env H; [done|].
  apply IH. by apply assign_keeps_names.
Qed.

Lemma split_head (a t : string) (c : ascii) :
  free_of c a = true →
  ∃ w post, Str.split (a +:+ t) c = (a +:+ w) :: post.
Proof.
  induction a as [|x a IH]; intros Ha.
  - rewrite str_app_nil_l. destruct (Str.split t c) as [|h tl] eqn:E.
    + by apply split_not_nil in E.
    + by exists h, tl.
  - pose proof (free_of_head _ _ _ Ha) as Hx. apply Ascii.eqb_neq in Hx.
    apply free_of_tail in Ha. destruct (IH Ha) as (w & post & E).
    rewrite str_app_cons. cbn [Str.split]. rewrite Hx, E.
    by exists w, post.
Qed.

(** Each variable [env] prints begins a line of the output. *)
Lemma env_output_line (env : Shell.environment) (k : string) :
  k ∈ map fst env → free_of (ascii_of_nat 10) k = true →
  ∃ w, (k +:+ "=" +:+ w)
       ∈ Str.split (Shell.env_output env) (ascii_of_nat 10).
Proof.
  intros Hin Hk. unfold Shell.env_output.
  induction env as [|[n v] env IH]; [by apply elem_of_nil in Hin|].
  cbn [map fst Shell.cat] in *. unfold Shell.env_line at 1. cbn [fst snd].
  apply elem_of_cons in Hin as [<-|Hin].
  - destruct (split_head (k +:+ "=")
                (v +:+ nl +:+ Shell.cat (map Shell.env_line env))
                (ascii_of_nat 10)) as (w & post & E).
    { by rewrite free_of_app, Hk. }
    exists w. rewrite <- !str_app_assoc in *. rewrite E. left.
  - destruct (IH Hin) as [w Hw]. exists w.
    destruct (split_app_any (n +:+ "=" +:+ v)
                (Shell.cat (map Shell.env_line env)) (ascii_of_nat 10))
      as (pre & _ & E).
    rewrite <- !str_app_assoc in *.
    change (nl +:+ ?s) with (String (ascii_of_nat 10) s).
    rewrite E. apply elem_of_app. by right.
Qed.

Lemma split_pieces_free (s : string) (c : ascii) :
  Forall (λ x, free_of c x = true) (Str.split s c).
Proof.
  induction s as [|x s IH]; [by repeat constructor|].
  cbn [Str.split]. destruct (Ascii.eqb x c) eqn:E; [by constructor|].
  destruct (Str.split s c) as [|h t]; [by constructor; simpl; rewrite ?E|].
  inversion IH; subst. constructor; [|done]. simpl. by rewrite E.
Qed.

Lemma grep_lines_spec (text l : string) :
  l ∈ Shell.grep_lines text
  ↔ l ∈ Str.split text (ascii_of_nat 10) ∧ Str.startswith l "CC_" = true.
Proof. unfold Shell.grep_lines. rewrite list_elem_of_filter. tauto. Qed.

Lemma grep_lines_shape (text : string) :
  Forall (λ l, Str.startswith l "CC_" = true
               ∧ free_of (ascii_of_nat 10) l = true)
    (Shell.grep_lines text).
Proof.
  apply Forall_forall. intros l [Hin Hs]%grep_lines_spec. split; [done|].
  pose proof (split_pieces_free text (ascii_of_nat 10)) as H.
  rewrite Forall_forall in H. by apply H.
Qed.

(** ** The lines [load_config] parses *)

Lemma rstrip_app_nonempty (a b : string) :
  Str.rstrip b ≠ "" → Str.rstrip (a +:+ b) = a +:+ Str.rstrip b.
Proof.
  intros Hb. induction a as [|x a IH]; [done|].
  rewrite !str_app_cons. cbn [Str.rstrip]. rewrite IH.
  destruct (a +:+ Str.rstrip b) eqn:E; [|done].
  by apply str_app_eq_nil in E as [_ ?].
Qed.

Lemma rstrip_app_empty (a b : string) :
  Str.rstrip b = "" → Str.rstrip (a +:+ b) = Str.rstrip a.
Proof.
  intros Hb. induction a as [|x a IH]; [done|].
  rewrite str_app_cons. cbn [Str.rstrip]. by rewrite IH.
Qed.

Lemma rstrip_head_nonspace (x : ascii) (b : string) :
  Str.isspace x = false → Str.rstrip (String x b) ≠ "".
Proof. intros Hx. cbn [Str.rstrip]. destruct (Str.rstrip b); by rewrite ?Hx. Qed.

Lemma rstrip_free (c : ascii) (s : string) :
  free_of c s = true → free_of c (Str.rstrip s) = true.
Proof.
  induction s as [|x s IH]; [done|]. cbn [free_of Str.rstrip].
  intros [Hx Hs]%andb_true_iff.
  destruct (Str.rstrip s) eqn:E.
  - destruct (Str.isspace x); [done|]. simpl. by rewrite Hx.
  - cbn [free_of]. rewrite Hx. by apply IH.
Qed.

Lemma rstrip_after_eq (k w : string) :
  ∃ w', Str.rstrip (k +:+ "=" +:+ w) = k +:+ "=" +:+ w'.
Proof.
  destruct (Str.rstrip w) as [|y r] eqn:E.
  - exists "". rewrite str_app_assoc, (rstrip_app_empty _ w E).
    by rewrite rstrip_app_nonempty.
  - exists (Str.rstrip w). rewrite str_app_assoc, rstrip_app_nonempty.
    + by rewrite <- str_app_assoc.
    + by rewrite E.
Qed.

Lemma cc_line_head (l : string) :
  Str.startswith l "CC_" = true → ∃ t, l = String "C" t.
Proof. intros [t ->]%prefix_split. by eexists. Qed.

Lemma rstrip_cc_lines (l : string) (L : list string) :
  Str.startswith l "CC_" = true →
  Str.rstrip (Shell.cat (map (λ x, x +:+ nl) (l :: L))) ≠ "".
Proof.
  intros [t ->]%cc_line_head. cbn [map Shell.cat].
  rewrite !str_app_cons. by apply rstrip_head_nonspace.
Qed.

(** A selected line is a parsed line, up to white space at its end. *)
Lemma rstrip_lines_keep (L : list string) (k w : string) :
  Forall (λ l, Str.startswith l "CC_" = true
               ∧ free_of (ascii_of_nat 10) l = true) L →
  (k +:+ "=" +:+ w) ∈ L →
  ∃ w', (k +:+ "=" +:+ w')
        ∈ Str.split (Str.rstrip (Shell.cat (map (λ x, x +:+ nl) L)))
            (ascii_of_nat 10).
Proof.
  induction 1 as [|l L [Hcc Hfree] HL IH]; [by intros ?%elem_of_nil|].
  intros Hin. destruct L as [|l2 L].
  - apply list_elem_of_singleton in Hin as <-. cbn [map Shell.cat].
    rewrite str_app_nil_r, rstrip_app_empty by done.
    destruct (rstrip_after_eq k w) as [w' E].
    exists w'. rewrite split_free; [rewrite E; left|].
    by apply rstrip_free.
  - change (map (λ x, x +:+ nl) (l :: l2 :: L))
      with ((l +:+ nl) :: map (λ x, x +:+ nl) (l2 :: L)).
    cbn [Shell.cat]. inversion HL as [|? ? [Hcc2 _] _]; subst.
    rewrite rstrip_app_nonempty by (by apply rstrip_cc_lines).
    rewrite <- str_app_assoc.
    change (nl +:+ ?s) with (String (ascii_of_nat 10) s).
    rewrite split_app by done.
    apply elem_of_cons in Hin as [<-|Hin].
    + exists w. left.
    + destruct (IH Hin) as [w' Hw']. exists w'. by right.
Qed.

Lemma strip_cc_lines (L : list string) :
  Forall (λ l, Str.startswith l "CC_" = true
               ∧ free_of (ascii_of_nat 10) l = true) L →
  Str.strip (Shell.cat (map (λ x, x +:+ nl) L))
  = Str.rstrip (Shell.cat (map (λ x, x +:+ nl) L)).
Proof.
  unfold Str.strip. destruct 1 as [|l L [[t ->]%cc_line_head _] _]; [done|].
  cbn [map Shell.cat]. by rewrite !str_app_cons.
Qed.

Lemma split_first_eq (k w : string) :
  free_of "=" k = true → Str.split_first "=" (k +:+ "=" +:+ w) = Some (k, w).
Proof.
  induction k as [|x k IH]; intros Hk.
  - rewrite str_app_nil_l. by destruct w.
  - pose proof (free_of_head _ _ _ Hk) as Hx. apply free_of_tail in Hk.
    rewrite str_app_cons. cbn [Str.split_first].
    rewrite (prefix_head_ne "=" x "") by done. by rewrite IH.
Qed.

Lemma contains_eq (k w : string) : Str.contains "=" (k +:+ "=" +:+ w) = true.
Proof.
  induction k as [|x k IH]; [by destruct w|].
  rewrite str_app_cons. cbn [Str.contains]. rewrite IH. apply orb_true_r.
Qed.

Lemma parse_line_key (config : gmap string string) (k w : string) :
  free_of "=" k = true →
  parse_line config (k +:+ "=" +:+ w) = <[k := w]> config.
Proof.
  intros Hk. unfold parse_line, Str.partition.
  by rewrite contains_eq, split_first_eq.
Qed.

Lemma parse_line_keeps (config : gmap string string) (line k : string) :
  is_Some (config !! k) → is_Some (parse_line config line !! k).
Proof.
  intros H. unfold parse_line. destruct (Str.contains "=" line); [|done].
  destruct (Str.partition line "=") as [[key ?] value].
  rewrite lookup_insert_is_Some. destruct (decide (key = k)); auto.
Qed.

Lemma foldl_parse_line_keeps (lines : list string)
    (config : gmap string string) (k : string) :
  is_Some (config !! k) → is_Some (foldl parse_line config lines !! k).
Proof.
  revert config. induction lines as [|l lines IH]; intros config H; [done|].
  apply IH. by apply parse_line_keeps.
Qed.

Lemma foldl_parse_line_elem (lines : list string)
    (config : gmap string string) (k w : string) :
  free_of "=" k = true → (k +:+ "=" +:+ w) ∈ lines →
  is_Some (foldl parse_line config lines !! k).
Proof.
  intros Hk. revert config.
  induction lines as [|l lines IH]; intros config Hin;
    [by apply elem_of_nil in Hin|].
  cbn [foldl]. apply elem_of_cons in Hin as [<-|Hin]; [|by apply IH].
  apply foldl_parse_line_keeps. rewrite parse_line_key by done.
  rewrite lookup_insert_eq. by eexists.
Qed.

(** Every [CC_] variable of the environment the shell ends with is a key
    of the parsed output. *)
Lemma parse_stdout_inherits (env : Shell.environment) (k : string) :
  k ∈ map fst env → Str.startswith k "CC_" = true →
  free_of "=" k = true → free_of (ascii_of_nat 10) k = true →
  is_Some (parse_stdout (Shell.grep (Shell.env_output env)) !! k).
Proof.
  intros Hin Hcc Heq Hnl.
  destruct (env_output_line env k Hin Hnl) as [w Hw].
  assert ((k +:+ "=" +:+ w) ∈ Shell.grep_lines (Shell.env_output env)) as Hg.
  { apply grep_lines_spec. split; [done|].
    unfold Str.startswith. by apply prefix_app_l. }
  pose proof (grep_lines_shape (Shell.env_output env)) as Hshape.
  destruct (rstrip_lines_keep _ k w Hshape Hg) as [w' Hw'].
  unfold parse_stdout, Shell.grep. rewrite strip_cc_lines by done.
  by apply (foldl_parse_line_elem _ _ k w').
Qed.

Lemma load_config_runs (fs : filesystem) (run : list string → result string)
    (config_file stdout : string) :
  config_file ≠ "" → os.isfile fs config_file = true →
  run ["bash"; "-c"; load_config_cmd config_file] = Ok stdout →
  load_config fs run config_file = Ok (parse_stdout stdout).
Proof.
  intros Hne Hfile Hrun. unfold load_config.
  apply String.eqb_neq in Hne. by rewrite Hne, Hfile, Hrun.
Qed.

(** C9.  For an existing configuration file of plain assignments, the
    shell prints the [CC_] variables of the environment it inherits from
    the generator process beside those the file assigns.  Every inherited
    variable whose name begins with [CC_] is a key of the dict
    [load_config] returns, whatever the file assigns; and for a file that
    assigns nothing the result under that environment differs from the
    result under an empty environment, which is the empty dict. *)
Theorem load_config_inherits_environment
    (fs : filesystem) (run : list string → result string)
    (config_file : string) (environ : Shell.environment)
    (assignments : list (string * string)) (k v : string) :
  config_file ≠ "" → os.isfile fs config_file = true →
  run ["bash"; "-c"; load_config_cmd config_file]
    = Ok (Shell.stdout environ assignments) →
  (k, v) ∈ environ →
  Str.startswith k "CC_" = true →
  free_of "=" k = true → free_of (ascii_of_nat 10) k = true →
  ∃ config,
    load_config fs run config_file = Ok config
    ∧ is_Some (config !! k)
    ∧ (assignments = [] →
       ∀ run0,
         run0 ["bash"; "-c"; load_config_cmd config_file]
           = Ok (Shell.stdout [] []) →
         load_config fs run0 config_file = Ok ∅
         ∧ load_config fs run0 config_file ≠ load_config fs run config_file).
Proof.
  intros Hne Hfile Hrun Hin Hcc Heq Hnl.
  exists (parse_stdout (Shell.stdout environ assignments)).
  assert (is_Some (parse_stdout (Shell.stdout environ assignments) !! k))
    as Hk.
  { apply parse_stdout_inherits; try done.
    apply source_keeps_names. apply list_elem_of_fmap. by exists (k, v). }
  split; [by apply load_config_runs|]. split; [done|].
  intros -> run0 Hrun0.
  rewrite (load_config_runs fs run0 _ _ Hne Hfile Hrun0).
  rewrite (load_config_runs fs run _ _ Hne Hfile Hrun).
  split; [done|]. intros H%Ok_inj.
  rewrite <- H in Hk. change (parse_stdout (Shell.stdout [] [])) with
    (∅ : gmap string string) in Hk.
  rewrite lookup_empty in Hk. by destruct Hk.
Qed.

Lemma load_config_inherits_environment_witness :
  ∃ config,
    load_config conf_fs
      (λ _, Ok (Shell.stdout
                  [("HOME", "/root"); ("CC_LANGUAGE", "python")] []))
      "/p/cognitive-core.conf" = Ok config
    ∧ is_Some (config !! "CC_LANGUAGE")
    ∧ load_config conf_fs (λ _, Ok (Shell.stdout [] []))
        "/p/cognitive-core.conf" = Ok ∅.
Proof.
  destruct (load_config_inherits_environment conf_fs
              (λ _, Ok (Shell.stdout
                          [("HOME", "/root"); ("CC_LANGUAGE", "python")] []))
              "/p/cognitive-core.conf"
              [("HOME", "/root"); ("CC_LANGUAGE", "python")] []
              "CC_LANGUAGE" "python")
    as (config & H1 & H2 & H3); try reflexivity.
  - done.
  - apply elem_of_cons; right. left.
  - exists config. split; [done|]. split; [done|].
    by destruct (H3 eq_refl (λ _, Ok (Shell.stdout [] [])) eq_refl).
Defined.

(** ** Paths and their components *)

Lemma split_app_sep (a b : string) (c : ascii) :
  Str.split (a +:+ String c b) c = Str.split a c ++ Str.split b c.
Proof.
  induction a as [|x a IH].
  - rewrite str_app_nil_l. simpl. by rewrite ascii_eqb_refl.
  - rewrite str_app_cons. cbn [Str.split]. rewrite IH.
    destruct (Ascii.eqb x c); [done|].
    destruct (Str.split a c) as [|h t] eqn:E; [by apply split_not_nil in E|].
    done.
Qed.

Lemma split_sep_cat (h : string) (t : list string) (c : ascii) :
  free_of c h = true → Forall (λ x, free_of c x = true) t →
  Str.split (h +:+ Shell.cat (map (λ x, String c x) t)) c = h :: t.
Proof.
  intros Hh Ht. revert h Hh. induction Ht as [|x t Hx _ IH]; intros h Hh.
  - cbn [map Shell.cat]. rewrite str_app_nil_r. by apply split_free.
  - cbn [map Shell.cat]. rewrite str_app_cons, split_app by done.
    by rewrite IH.
Qed.

Lemma drop_split (n : nat) (s : string) :
  n ≤ String.length s →
  ∃ a, s = a +:+ Str.drop n s ∧ String.length a = n.
Proof.
  revert s. induction n as [|n IH]; intros s Hn.
  - exists "". by rewrite drop_0.
  - destruct s as [|x s]; [simpl in Hn; lia|].
    destruct (IH s) as (a & Ha & Hl); [simpl in Hn; lia|].
    exists (String x a). cbn [Str.drop]. rewrite str_app_cons, <- Ha.
    split; [done|]. simpl. by rewrite Hl.
Qed.

Lemma endswith_split (s suf : string) :
  Str.endswith s suf = true → ∃ a, s = a +:+ suf.
Proof.
  unfold Str.endswith. intros [Hl He]%andb_true_iff.
  apply Nat.leb_le in Hl. apply String.eqb_eq in He.
  destruct (drop_split (String.length s - String.length suf) s)
    as (a & Ha & _); [lia|].
  exists a. by rewrite He in Ha.
Qed.

Lemma endswith_app (a suf : string) : Str.endswith (a +:+ suf) suf = true.
Proof.
  unfold Str.endswith. rewrite str_length_app.
  replace (String.length a + String.length suf - String.length suf)
    with (String.length a) by lia.
  rewrite drop_app, String.eqb_refl, andb_true_r.
  apply Nat.leb_le. lia.
Qed.

Lemma endswith_free (x : string) :
  free_of "/" x = true → Str.endswith x "/" = false.
Proof.
  intros Hx. apply not_true_iff_false. intros [a ->]%endswith_split.
  rewrite free_of_app in Hx. by apply andb_true_iff in Hx as [_ ?].
Qed.

Lemma endswith_app_free (a x : string) :
  x ≠ "" → free_of "/" x = true → Str.endswith (a +:+ x) "/" = false.
Proof.
  intros Hne Hx. apply not_true_iff_false. intros [b Hb]%endswith_split.
  assert (∀ a b, a +:+ x = b +:+ "/" → False) as Habs; [|by eapply Habs].
  clear a b Hb. intros a. induction a as [|y a IH]; intros b Hb.
  - rewrite str_app_nil_l in Hb. rewrite Hb, free_of_app in Hx.
    by apply andb_true_iff in Hx as [_ ?].
  - destruct b as [|z b].
    + rewrite str_app_cons, str_app_nil_l in Hb. injection Hb as _ Hb.
      by apply str_app_eq_nil in Hb as [_ ?].
    + rewrite !str_app_cons in Hb. injection Hb as _ Hb. by eapply IH.
Qed.

Lemma startswith_free (x : string) :
  free_of "/" x = true → Str.startswith x "/" = false.
Proof.
  destruct x as [|c x]; [done|]. intros Hc%free_of_head.
  unfold Str.startswith. by apply prefix_head_ne.
Qed.

Lemma file_name_parts (f : string) :
  file_name f = true →
  f ≠ "" ∧ f ≠ "." ∧ f ≠ ".." ∧ free_of "/" f = true.
Proof.
  unfold file_name.
  intros [[[H1 H2]%andb_true_iff H3]%andb_true_iff H4]%andb_true_iff.
  apply negb_true_iff, String.eqb_neq in H1, H2, H3. done.
Qed.

(** Joining an accumulated path with plain components. *)
Lemma join2_component (acc x : string) :
  acc ≠ "" → Str.endswith acc "/" = false →
  x ≠ "" → free_of "/" x = true →
  os.join2 acc x = acc +:+ "/" +:+ x.
Proof.
  intros Hacc Hend Hx Hfree. unfold os.join2.
  rewrite startswith_free, Hend by done.
  apply String.eqb_neq in Hacc. by rewrite Hacc.
Qed.

Lemma join_components (acc : string) (t : list string) :
  acc ≠ "" → Str.endswith acc "/" = false →
  Forall (λ x, x ≠ "" ∧ free_of "/" x = true) t →
  os.join acc t = acc +:+ Shell.cat (map (λ x, String "/" x) t).
Proof.
  intros Hacc Hend Ht. revert acc Hacc Hend.
  induction Ht as [|x t [Hx Hfree] _ IH]; intros acc Hacc Hend.
  - by rewrite str_app_nil_r.
  - unfold os.join in *. cbn [foldl map Shell.cat].
    rewrite join2_component by done. rewrite IH.
    + by rewrite <- !str_app_assoc.
    + by intros [? _]%str_app_eq_nil.
    + rewrite str_app_assoc. by apply endswith_app_free.
Qed.

(** Plain components are read back from their join. *)
Lemma split_join_components (h : string) (t : list string) :
  Forall (λ x, x ≠ "" ∧ free_of "/" x = true) (h :: t) →
  Str.split (os.join h t) "/" = h :: t.
Proof.
  intros [[Hh Hfree] Ht]%Forall_cons.
  rewrite join_components by (done || by apply endswith_free).
  apply split_sep_cat; [done|].
  eapply Forall_impl; [exact Ht|]. by intros x [_ ?].
Qed.

Lemma common_prefix_len_app (P X : list string) :
  os.common_prefix_len P (P ++ X) = length P.
Proof.
  induction P as [|x P IH]; [by destruct X|].
  simpl. by rewrite String.eqb_refl, IH.
Qed.

Lemma common_prefix_len_le (P Q : list string) :
  os.common_prefix_len P Q ≤ length P.
Proof.
  revert Q. induction P as [|x P IH]; intros [|y Q]; simpl; try lia.
  destruct (String.eqb x y); [|lia]. specialize (IH Q). lia.
Qed.

Lemma common_prefix_len_full (P Q : list string) :
  os.common_prefix_len P Q = length P → Q = P ++ List.skipn (length P) Q.
Proof.
  revert Q. induction P as [|x P IH]; intros Q; [done|].
  destruct Q as [|y Q]; [done|]. simpl.
  destruct (String.eqb_spec x y) as [->|]; [|done].
  intros [= H]. f_equal. by apply IH.
Qed.

Lemma Forall_removelast {A} (P : A → Prop) (l : list A) :
  Forall P l → Forall P (removelast l).
Proof.
  induction 1 as [|x l Hx Hl IH]; [constructor|].
  simpl. destruct l; [constructor | by constructor].
Qed.

Lemma norm_step_good (b : bool) (acc : list string) (comp : string) :
  Forall (λ x, x ≠ "" ∧ free_of "/" x = true) acc →
  free_of "/" comp = true →
  Forall (λ x, x ≠ "" ∧ free_of "/" x = true) (os.norm_step b acc comp).
Proof.
  intros Hacc Hc. unfold os.norm_step.
  destruct (String.eqb_spec comp "") as [->|Hne]; [done|]. cbn [orb].
  destruct (String.eqb comp "."); [done|].
  destruct (_ || _).
  - apply Forall_app. split; [done|]. by repeat constructor.
  - by apply Forall_removelast.
Qed.

Lemma foldl_norm_step_good (b : bool) (pieces acc : list string) :
  Forall (λ x, x ≠ "" ∧ free_of "/" x = true) acc →
  Forall (λ x, free_of "/" x = true) pieces →
  Forall (λ x, x ≠ "" ∧ free_of "/" x = true)
    (foldl (os.norm_step b) acc pieces).
Proof.
  intros Hacc Hp. revert acc Hacc.
  induction Hp as [|x l Hx _ IH]; intros acc Hacc; [done|].
  cbn [foldl]. apply IH. by apply norm_step_good.
Qed.

Lemma norm_comps_good (q : string) :
  Forall (λ x, x ≠ "" ∧ free_of "/" x = true) (norm_comps q).
Proof.
  apply foldl_norm_step_good; [constructor | apply split_pieces_free].
Qed.

Lemma norm_step_file_name (b : bool) (acc : list string) (x : string) :
  file_name x = true → os.norm_step b acc x = acc ++ [x].
Proof.
  intros (H1 & H2 & H3 & _)%file_name_parts. unfold os.norm_step.
  apply String.eqb_neq in H1, H2, H3. by rewrite H1, H2, H3.
Qed.

Lemma initial_slashes_absolute (q : string) :
  Str.startswith q "/" = true → negb (os.initial_slashes q =? 0) = true.
Proof. intros H. unfold os.initial_slashes. rewrite H. by destruct (_ && _). Qed.

Lemma startswith_app (q y : string) :
  Str.startswith q "/" = true → Str.startswith (q +:+ y) "/" = true.
Proof. apply prefix_app_l. Qed.

Lemma join2_absolute (q x : string) :
  Str.startswith q "/" = true → free_of "/" x = true →
  Str.startswith (os.join2 q x) "/" = true.
Proof.
  intros Hq Hx. unfold os.join2. rewrite (startswith_free x) by done.
  cbv iota. destruct (_ || _); by apply startswith_app.
Qed.

(** A plain component joined to an absolute path is one more component of
    the normalised path. *)
Lemma norm_comps_join2 (q x : string) :
  Str.startswith q "/" = true → file_name x = true →
  norm_comps (os.join2 q x) = norm_comps q ++ [x].
Proof.
  intros Hq Hx. pose proof (file_name_parts x Hx) as (Hne & _ & _ & Hfree).
  unfold norm_comps.
  rewrite !initial_slashes_absolute by (done || by apply join2_absolute).
  unfold os.join2. rewrite (startswith_free x) by done. cbv iota.
  assert (String.eqb q "" = false) as -> by (by destruct q).
  cbn [orb]. destruct (Str.endswith q "/") eqn:E.
  - apply endswith_split in E as [q' ->].
    rewrite <- str_app_assoc.
    change ("/" +:+ x) with (String "/" x).
    change (q' +:+ "/") with (q' +:+ String "/" "").
    rewrite !split_app_sep, (split_free x) by done.
    rewrite !foldl_app. cbn [foldl Str.split].
    rewrite norm_step_file_name by done. reflexivity.
  - change ("/" +:+ x) with (String "/" x).
    rewrite split_app_sep, (split_free x) by done.
    rewrite foldl_app. cbn [foldl]. by rewrite norm_step_file_name.
Qed.

Lemma startswith_cons (c : ascii) (s t : string) :
  Str.startswith (String c s) "/" = Str.startswith (String c t) "/".
Proof. unfold Str.startswith. by rewrite !prefix_cons, !prefix_nil. Qed.

Lemma endswith_app_nonempty (a p : string) :
  p ≠ "" → Str.endswith (a +:+ p) "/" = Str.endswith p "/".
Proof.
  intros Hp. destruct (Str.endswith p "/") eqn:E.
  - apply endswith_split in E as [p' ->]. rewrite str_app_assoc.
    apply endswith_app.
  - apply not_true_iff_false. intros [b Hb]%endswith_split.
    assert (∃ p', p = p' +:+ "/") as [p' ->];
      [|by rewrite endswith_app in E].
    clear E. revert b Hb. induction a as [|y a IH]; intros b Hb.
    + by exists b.
    + destruct b as [|z b].
      * rewrite str_app_cons, str_app_nil_l in Hb. injection Hb as _ Hb.
        by apply str_app_eq_nil in Hb as [_ ?].
      * rewrite !str_app_cons in Hb. injection Hb as _ Hb. by eapply IH.
Qed.

Lemma join2_relative (a b : string) :
  Str.startswith b "/" = false →
  os.join2 a b
  = a +:+ (if String.eqb a "" || Str.endswith a "/" then "" else "/") +:+ b.
Proof.
  intros Hb. unfold os.join2. rewrite Hb. by destruct (_ || _).
Qed.

Lemma join2_relative_start (p x : string) :
  Str.startswith p "/" = false → Str.startswith x "/" = false →
  Str.startswith (os.join2 p x) "/" = false.
Proof.
  intros Hp Hx. rewrite join2_relative by done.
  destruct p as [|c p]; [done|].
  rewrite str_app_cons. by rewrite (startswith_cons c _ p).
Qed.

Lemma join2_assoc (cwd p x : string) :
  cwd ≠ "" →
  Str.startswith p "/" = false → Str.startswith x "/" = false →
  os.join2 cwd (os.join2 p x) = os.join2 (os.join2 cwd p) x.
Proof.
  intros Hcwd Hp Hx.
  rewrite (join2_relative cwd (os.join2 p x))
    by (by apply join2_relative_start).
  rewrite (join2_relative (os.join2 cwd p) x) by done.
  rewrite (join2_relative cwd p), (join2_relative p x) by done.
  apply String.eqb_neq in Hcwd as Hc. rewrite Hc. cbn [orb].
  set (s1 := if Str.endswith cwd "/" then "" else "/").
  assert (String.eqb (cwd +:+ s1 +:+ p) "" = false) as ->
    by (apply String.eqb_neq; by intros [? _]%str_app_eq_nil).
  cbn [orb].
  assert (Str.endswith (cwd +:+ s1 +:+ p) "/"
          = (String.eqb p "" || Str.endswith p "/")) as ->.
  { destruct p as [|c p].
    - rewrite str_app_nil_r. cbn [String.eqb orb]. unfold s1.
      destruct (Str.endswith cwd "/") eqn:E.
      + by rewrite str_app_nil_r.
      + apply endswith_app.
    - rewrite str_app_assoc. by rewrite endswith_app_nonempty. }
  by rewrite <- !str_app_assoc.
Qed.

(** [abspath] of a path with one more plain component. *)
Lemma absolute_join2 (cwd p x : string) :
  Str.startswith cwd "/" = true → file_name x = true →
  absolute cwd (os.join2 p x) = os.join2 (absolute cwd p) x.
Proof.
  intros Hcwd Hx. pose proof (file_name_parts x Hx) as (Hne & _ & _ & Hfree).
  pose proof (startswith_free x Hfree) as Hxs.
  unfold absolute. destruct (Str.startswith p "/") eqn:Hp.
  - by rewrite join2_absolute.
  - rewrite join2_relative_start by done.
    apply join2_assoc; [by destruct cwd | done..].
Qed.

Lemma absolute_start (cwd p : string) :
  Str.startswith cwd "/" = true → Str.startswith (absolute cwd p) "/" = true.
Proof.
  intros Hcwd. unfold absolute. destruct (Str.startswith p "/") eqn:Hp; [done|].
  rewrite join2_relative by done. by apply startswith_app.
Qed.

Lemma join_sep_cat (c : ascii) (h : string) (t : list string) :
  Str.join (String c "") (h :: t)
  = h +:+ Shell.cat (map (λ x, String c x) t).
Proof.
  revert h. induction t as [|x t IH]; intros h.
  - by rewrite str_app_nil_r.
  - rewrite join_cons by done. rewrite IH. cbn [map Shell.cat].
    reflexivity.
Qed.

Lemma filter_nonempty_good (l : list string) :
  Forall (λ x, x ≠ "" ∧ free_of "/" x = true) l →
  filter (λ x, x ≠ "") l = l.
Proof.
  induction 1 as [|x l [Hx _] _ IH]; [done|].
  rewrite filter_cons_True by done. by rewrite IH.
Qed.

Lemma components_join (comps : list string) :
  Forall (λ x, x ≠ "" ∧ free_of "/" x = true) comps →
  os.components (Str.join "/" comps) = comps.
Proof.
  intros H. unfold os.components. destruct comps as [|h t]; [done|].
  change "/" with (String "/" ""). rewrite join_sep_cat.
  apply Forall_cons in H as H'. destruct H' as [[_ Hh] Ht].
  rewrite split_sep_cat; [by apply filter_nonempty_good|done|].
  eapply Forall_impl; [exact Ht|]. by intros x [_ ?].
Qed.

(** The components of [abspath] are those the loop of [normpath] leaves. *)
Lemma components_abspath (cwd p : string) :
  Str.startswith cwd "/" = true →
  os.components (os.abspath cwd p) = norm_comps (absolute cwd p).
Proof.
  intros Hcwd. pose proof (absolute_start cwd p Hcwd) as Habs.
  unfold os.abspath. fold (absolute cwd p). set (q := absolute cwd p) in *.
  unfold os.normpath. fold (norm_comps q).
  assert (String.eqb q "" = false) as -> by (by destruct q).
  pose proof (norm_comps_good q) as Hgood.
  pose proof (components_join _ Hgood) as Hj. unfold os.components in Hj.
  unfold os.initial_slashes. rewrite Habs.
  unfold os.components.
  destruct (_ && _); cbn [os.slashes];
    rewrite <- !str_app_assoc, str_app_nil_l;
    repeat change ("/" +:+ ?s) with (String "/" s);
    cbn [String.eqb Str.split]; rewrite !ascii_eqb_refl;
    rewrite !filter_cons_False by (by intros ?); exact Hj.
Qed.

Lemma relpath_components (cwd path start : string) :
  Str.startswith cwd "/" = true → path ≠ "" →
  os.relpath cwd path start
  = let P := norm_comps (absolute cwd start) in
    let Q := norm_comps (absolute cwd path) in
    let i := os.common_prefix_len P Q in
    match repeat ".." (length P - i) ++ List.skipn i Q with
    | [] => Ok "."
    | h :: t => Ok (os.join h t)
    end.
Proof.
  intros Hcwd Hne. unfold os.relpath.
  apply String.eqb_neq in Hne as ->.
  by rewrite !components_abspath.
Qed.

(** ** The agent paths of the two renderers *)

Lemma file_name_agents : file_name "agents" = true.
Proof. reflexivity. Qed.

Lemma file_name_cognitive_core : file_name ".cognitive-core" = true.
Proof. reflexivity. Qed.

Lemma agent_file_comps (cwd install_dir f : string) :
  Str.startswith cwd "/" = true → file_name f = true →
  norm_comps (absolute cwd (os.join (os.join install_dir ["agents"]) [f]))
  = norm_comps (absolute cwd install_dir) ++ ["agents"; f].
Proof.
  intros Hcwd Hf. unfold os.join. cbn [foldl].
  rewrite (absolute_join2 cwd (os.join2 install_dir "agents") f Hcwd Hf).
  rewrite (absolute_join2 cwd install_dir "agents" Hcwd file_name_agents).
  pose proof (absolute_start cwd install_dir Hcwd) as Habs.
  rewrite (norm_comps_join2 _ f);
    [|by apply join2_absolute|done].
  rewrite (norm_comps_join2 _ "agents") by done.
  by rewrite <- List.app_assoc.
Qed.

Lemma install_dir_comps (cwd project_dir : string) :
  Str.startswith cwd "/" = true →
  os.components (os.abspath cwd (os.join project_dir [".cognitive-core"]))
  = norm_comps (absolute cwd project_dir) ++ [".cognitive-core"].
Proof.
  intros Hcwd. rewrite components_abspath by done. unfold os.join.
  cbn [foldl].
  rewrite (absolute_join2 cwd project_dir _ Hcwd file_name_cognitive_core).
  by rewrite norm_comps_join2 by (by apply absolute_start || done).
Qed.

Lemma fixed_agent_path (f : string) :
  file_name f = true →
  os.join ".cognitive-core" ["agents"; f] = ".cognitive-core/agents/" +:+ f.
Proof.
  intros (Hne & _ & _ & Hfree)%file_name_parts.
  rewrite join_components; [| done | reflexivity | by repeat constructor].
  cbn [map Shell.cat]. rewrite !str_app_cons, str_app_nil_r. reflexivity.
Qed.

Lemma repeat_good (n : nat) :
  Forall (λ x, x ≠ "" ∧ free_of "/" x = true) (repeat ".." n).
Proof. induction n; simpl; by repeat constructor. Qed.

Lemma Forall_skipn {A} (P : A → Prop) (n : nat) (l : list A) :
  Forall P l → Forall P (List.skipn n l).
Proof.
  revert l. induction n as [|n IH]; intros l H; [done|].
  destruct H; [constructor | by apply IH].
Qed.

(** The path the settings renderer computes is the fixed path of the
    conventions renderer exactly when the install directory is the
    [.cognitive-core] of the project directory, as normalised absolute
    paths. *)
Lemma relpath_fixed_iff (cwd project_dir install_dir f : string) :
  Str.startswith cwd "/" = true → file_name f = true →
  os.relpath cwd (os.join (os.join install_dir ["agents"]) [f]) project_dir
    = Ok (os.join ".cognitive-core" ["agents"; f])
  ↔ norm_comps (absolute cwd install_dir)
    = norm_comps (absolute cwd project_dir) ++ [".cognitive-core"].
Proof.
  intros Hcwd Hf. pose proof (file_name_parts f Hf) as (Hne & _ & _ & Hfree).
  rewrite relpath_components; [|done|by apply join2_not_nil].
  cbv zeta. rewrite agent_file_comps by done.
  set (P := norm_comps (absolute cwd project_dir)).
  set (I := norm_comps (absolute cwd install_dir)).
  assert (Forall (λ x, x ≠ "" ∧ free_of "/" x = true)
            [".cognitive-core"; "agents"; f]) as Hfixed
    by (by repeat constructor).
  split.
  - intros H.
    assert (Forall (λ x, x ≠ "" ∧ free_of "/" x = true)
              (repeat ".." (length P
                            - os.common_prefix_len P (I ++ ["agents"; f]))
               ++ List.skipn (os.common_prefix_len P (I ++ ["agents"; f]))
                    (I ++ ["agents"; f]))) as Hgood.
    { apply Forall_app. split; [apply repeat_good|].
      apply Forall_skipn, Forall_app. split; [apply norm_comps_good|].
      by repeat constructor. }
    destruct (repeat _ _ ++ _) as [|h t] eqn:E.
    { rewrite fixed_agent_path in H by done. discriminate. }
    apply Ok_inj in H. apply (f_equal (λ s, Str.split s "/")) in H.
    rewrite !split_join_components in H by done.
    rewrite H in E. clear H Hgood h t.
    destruct (length P - os.common_prefix_len P (I ++ ["agents"; f]))
      as [|n] eqn:En; [|discriminate].
    pose proof (common_prefix_len_le P (I ++ ["agents"; f])) as Hle.
    assert (os.common_prefix_len P (I ++ ["agents"; f]) = length P) as Hi
      by lia.
    rewrite Hi in E. cbn [repeat app] in E.
    pose proof (common_prefix_len_full _ _ Hi) as HQ. rewrite E in HQ.
    change [".cognitive-core"; "agents"; f]
      with ([".cognitive-core"] ++ ["agents"; f]) in HQ.
    rewrite List.app_assoc in HQ. by apply app_inv_tail in HQ.
  - intros ->. rewrite <- List.app_assoc. cbn [app].
    rewrite common_prefix_len_app, Nat.sub_diag.
    by rewrite skipn_app, skipn_all, Nat.sub_diag.
Qed.

Lemma mapM_Forall2 {A B} (f : A → result B) (l : list A) (ys : list B) :
  mapM f l = Ok ys → Forall2 (λ x y, f x = Ok y) l ys.
Proof.
  revert ys. induction l as [|x l IH]; intros ys.
  - intros <-%Ok_inj. constructor.
  - cbn [mapM]. destruct (f x) as [y|] eqn:E; [|done].
    cbn [mbind result_bind]. fold (mapM f l).
    destruct (mapM f l) as [ys'|]; [|done].
    cbn [mbind result_bind]. intros <-%Ok_inj. constructor; [done|by apply IH].
Qed.

Lemma md_files_file_names (entries : list string) :
  Forall (λ f, file_name f = true) entries →
  Forall (λ f, file_name f = true) (md_files entries).
Proof.
  intros H. apply Forall_forall. intros f [Hin _]%md_files_elem.
  rewrite Forall_forall in H. by apply H.
Qed.

Lemma agent_ref_fixed_path (title : string → string) (f : string) :
  file_name f = true →
  agent_ref title f
  = "- **" +:+ title (Str.replace (Str.replace f ".md" "") "-" " ")
    +:+ "**: `" +:+ ".cognitive-core/agents/" +:+ f +:+ "`".
Proof. intros Hf. unfold agent_ref. by rewrite fixed_agent_path. Qed.

Lemma settings_lines_rels (cwd project_dir agents_dir : string)
    (l lines : list string) :
  Forall2 (λ f line,
             settings_agent_line cwd project_dir agents_dir f = Ok line)
    l lines →
  ∃ rels,
    lines = map (λ rel, "  - " +:+ rel) rels
    ∧ Forall2 (λ f rel,
                 os.relpath cwd (os.join agents_dir [f]) project_dir = Ok rel)
        l rels.
Proof.
  induction 1 as [|f line l lines Hf _ (rels & -> & IH)].
  - by exists [].
  - unfold settings_agent_line in Hf.
    destruct (os.relpath cwd (os.join agents_dir [f]) project_dir)
      as [rel|] eqn:E; [|done].
    cbn [mbind result_bind] in Hf. apply Ok_inj in Hf as <-.
    exists (rel :: rels). split; [done|]. by constructor.
Qed.

(** C10, as the code has it.  For an agents directory that lists file
    names of which some end in [.md], [_build_agent_refs] writes each
    path as [.cognitive-core/agents/] followed by the file name, wherever
    the install directory is, and [generate_settings] writes for each file
    the path [relpath] computes from the install directory to the project
    directory.  The two paths of a file are the same exactly when the
    install directory and the project directory joined with
    [.cognitive-core] are the same normalised absolute path. *)
Theorem agent_paths_of_the_renderers
    (title : string → string) (fs : filesystem)
    (cwd project_dir install_dir : string) (entries : list string) :
  Str.startswith cwd "/" = true →
  fs (os.join install_dir ["agents"]) = Some (Dir (Ok entries)) →
  Forall (λ f, file_name f = true) entries →
  md_files entries ≠ [] →
  _build_agent_refs title fs install_dir
    = Ok ("Agent documentation is available for reference:" +:+ nl
          +:+ Str.join nl
                (map (λ f, "- **"
                           +:+ title (Str.replace (Str.replace f ".md" "")
                                        "-" " ")
                           +:+ "**: `" +:+ ".cognitive-core/agents/" +:+ f
                           +:+ "`")
                   (md_files entries))
          +:+ nl +:+ nl
          +:+ "Use their guidance when working in their specialist domains.")
  ∧ (∃ rels,
       settings_agent_lines fs cwd project_dir install_dir
         = Ok (map (λ rel, "  - " +:+ rel) rels)
       ∧ Forall2
           (λ f rel,
              os.relpath cwd (os.join (os.join install_dir ["agents"]) [f])
                project_dir = Ok rel)
           (md_files entries) rels)
  ∧ ∀ f,
      f ∈ md_files entries →
      os.relpath cwd (os.join (os.join install_dir ["agents"]) [f])
        project_dir
        = Ok (".cognitive-core/agents/" +:+ f)
      ↔ os.components (os.abspath cwd install_dir)
        = os.components
            (os.abspath cwd (os.join project_dir [".cognitive-core"])).
Proof.
  intros Hcwd Hfs Hnames Hmd.
  pose proof (md_files_file_names _ Hnames) as Hmdn.
  split; [|split].
  - unfold _build_agent_refs, os.isdir, os.listdir. rewrite Hfs.
    cbn [negb mbind result_bind].
    assert (map (agent_ref title) (md_files entries)
            = map (λ f, "- **"
                        +:+ title (Str.replace (Str.replace f ".md" "")
                                     "-" " ")
                        +:+ "**: `" +:+ ".cognitive-core/agents/" +:+ f
                        +:+ "`")
                (md_files entries)) as <-.
    { apply map_ext_Forall. eapply Forall_impl; [exact Hmdn|].
      intros f Hf. by apply agent_ref_fixed_path. }
    destruct (md_files entries) as [|f l]; [done|]. reflexivity.
  - unfold settings_agent_lines, os.isdir, os.listdir. rewrite Hfs.
    cbn [mbind result_bind].
    destruct (mapM_Ok
                (settings_agent_line cwd project_dir
                   (os.join install_dir ["agents"]))
                (md_files entries)) as [lines Hlines].
    { eapply Forall_impl; [exact Hmdn|]. intros f Hf.
      apply settings_agent_line_Ok. by apply file_name_parts in Hf as [? _]. }
    rewrite Hlines. apply mapM_Forall2, settings_lines_rels in Hlines.
    destruct Hlines as (rels & -> & Hrels). by exists rels.
  - intros f Hin. rewrite Forall_forall in Hmdn. specialize (Hmdn f Hin).
    rewrite <- fixed_agent_path by done.
    rewrite relpath_fixed_iff by done.
    by rewrite components_abspath, install_dir_comps.
Qed.

Lemma agent_paths_of_the_renderers_witness :
  os.relpath "/home/dev"
    (os.join (os.join "/p/.cognitive-core" ["agents"]) ["reviewer.md"]) "/p"
    = Ok ".cognitive-core/agents/reviewer.md"
  ∧ os.relpath "/home/dev"
      (os.join (os.join "/opt/cognitive-core" ["agents"]) ["reviewer.md"]) "/p"
    ≠ Ok ".cognitive-core/agents/reviewer.md".
Proof.
  split.
  - destruct (agent_paths_of_the_renderers title_ascii
                (agents_fs "/p/.cognitive-core" ["reviewer.md"; "notes.txt"])
                "/home/dev" "/p" "/p/.cognitive-core"
                ["reviewer.md"; "notes.txt"]) as (_ & _ & H);
      [reflexivity | reflexivity | by repeat constructor | by vm_compute |].
    apply (H "reviewer.md"); [by vm_compute; left | reflexivity].
  - destruct (agent_paths_of_the_renderers title_ascii
                (agents_fs "/opt/cognitive-core" ["reviewer.md"])
                "/home/dev" "/p" "/opt/cognitive-core"
                ["reviewer.md"]) as (_ & _ & H);
      [reflexivity | reflexivity | by repeat constructor | by vm_compute |].
    intros E. apply (H "reviewer.md") in E; [|by vm_compute; left].
    vm_compute in E. discriminate.
Defined.

(** C10, as the specification words it: the two paths can be the same
    although the install directory is another string than the project
    directory joined with [.cognitive-core].  A trailing slash and a
    relative spelling are two such install directories. *)
Lemma agent_paths_same_for_other_install_dir :
  ¬ ∀ cwd project_dir install_dir f,
      Str.startswith cwd "/" = true → file_name f = true →
      os.relpath cwd (os.join (os.join install_dir ["agents"]) [f])
        project_dir
        = Ok (os.join ".cognitive-core" ["agents"; f]) →
      install_dir = os.join project_dir [".cognitive-core"].
Proof.
  intros H.
  specialize (H "/home/dev" "/p" "/p/.cognitive-core/" "reviewer.md"
                eq_refl eq_refl eq_refl).
  discriminate.
Qed.

(** * Further properties of the generator *)

(** ** The order of the agent documents *)

Lemma ascii_compare_trans (a b c : ascii) :
  Ascii.compare a b ≠ Gt → Ascii.compare b c ≠ Gt → Ascii.compare a c ≠ Gt.
Proof.
  unfold Ascii.compare. rewrite !N.compare_le_iff. lia.
Qed.

Lemma ascii_compare_Lt_trans (a b c : ascii) :
  Ascii.compare a b = Lt → Ascii.compare b c = Lt → Ascii.compare a c = Lt.
Proof. unfold Ascii.compare. rewrite !N.compare_lt_iff. lia. Qed.

Lemma ascii_compare_Eq (a b : ascii) : Ascii.compare a b = Eq → a = b.
Proof. apply Ascii.compare_eq_iff. Qed.

Lemma str_le_trans (a b c : string) : str_le a b → str_le b c → str_le a c.
Proof.
  unfold str_le, String.leb. revert b c.
  induction a as [|x a IH]; intros [|y b] [|z c]; simpl; try done.
  destruct (Ascii.compare x y) eqn:Exy; try done;
    destruct (Ascii.compare y z) eqn:Eyz; try done; intros Hab Hbc.
  - apply ascii_compare_Eq in Exy as ->. rewrite Eyz. by apply (IH b c).
  - apply ascii_compare_Eq in Exy as ->. by rewrite Eyz.
  - apply ascii_compare_Eq in Eyz as <-. by rewrite Exy.
  - by rewrite (ascii_compare_Lt_trans x y z).
Qed.

#[export] Instance str_le_transitive : Transitive str_le.
Proof. intros a b c. apply str_le_trans. Qed.

#[export] Instance str_le_antisym : AntiSymm eq str_le.
Proof. intros a b. apply String.leb_antisym. Qed.

Lemma str_le_total (a b : string) : str_le a b ∨ str_le b a.
Proof. apply String.leb_total. Qed.

Lemma insert_sorted_StronglySorted (x : string) (l : list string) :
  StronglySorted str_le l → StronglySorted str_le (insert_sorted x l).
Proof.
  induction 1 as [|y l Hl IH Hy]; simpl; [by repeat constructor|].
  destruct (String.leb x y) eqn:E.
  - constructor; [by constructor|]. constructor; [done|].
    eapply Forall_impl; [exact Hy|]. intros z Hz. by transitivity y.
  - constructor; [done|]. rewrite insert_sorted_perm.
    constructor; [|done]. destruct (str_le_total x y) as [H|H]; [|done].
    unfold str_le in H. congruence.
Qed.

Lemma sorted_StronglySorted (l : list string) : StronglySorted str_le (sorted l).
Proof.
  induction l as [|x l IH]; [constructor|].
  by apply insert_sorted_StronglySorted.
Qed.

Lemma sorted_of_permutation (l1 l2 : list string) :
  l1 ≡ₚ l2 → sorted l1 = sorted l2.
Proof.
  intros H. apply (StronglySorted_unique str_le);
    try apply sorted_StronglySorted.
  by rewrite !sorted_perm.
Qed.

Lemma StronglySorted_filter_md (l : list string) :
  StronglySorted str_le l →
  StronglySorted str_le (filter (λ f, Str.endswith f ".md" = true) l).
Proof.
  induction 1 as [|x l Hl IH Hx]; [constructor|].
  destruct (decide (Str.endswith x ".md" = true)) as [E|E].
  - rewrite filter_cons_True by done. constructor; [done|].
    apply Forall_forall. intros y [_ Hy]%list_elem_of_filter.
    rewrite Forall_forall in Hx. by apply Hx.
  - by rewrite filter_cons_False.
Qed.

(** X1.  The documents of the agents directory are taken in the code-point
    order of their names, and in no other: listing the same entries in
    another order changes neither the agent references of the conventions
    document nor the settings document. *)
Theorem agent_documents_order
    (title : string → string) (fs1 fs2 : filesystem)
    (cwd project_dir install_dir : string) (config : gmap string string)
    (entries1 entries2 : list string) :
  fs1 (os.join install_dir ["agents"]) = Some (Dir (Ok entries1)) →
  fs2 (os.join install_dir ["agents"]) = Some (Dir (Ok entries2)) →
  entries1 ≡ₚ entries2 →
  StronglySorted str_le (md_files entries1)
  ∧ _build_agent_refs title fs1 install_dir
    = _build_agent_refs title fs2 install_dir
  ∧ generate_settings fs1 cwd project_dir install_dir config
    = generate_settings fs2 cwd project_dir install_dir config.
Proof.
  intros H1 H2 Hperm.
  assert (md_files entries1 = md_files entries2) as Hmd
    by (unfold md_files; by rewrite (sorted_of_permutation _ _ Hperm)).
  split; [|split].
  - apply StronglySorted_filter_md, sorted_StronglySorted.
  - unfold _build_agent_refs, os.isdir, os.listdir. rewrite H1, H2.
    cbn [negb mbind result_bind]. by rewrite Hmd.
  - unfold generate_settings, settings_lines, settings_agent_lines,
      os.isdir, os.listdir. rewrite H1, H2.
    cbn [mbind result_bind]. by rewrite Hmd.
Qed.

Lemma agent_documents_order_witness :
  _build_agent_refs title_ascii
    (agents_fs "/p/.cognitive-core" ["reviewer.md"; "README"; "architect.md"])
    "/p/.cognitive-core"
  = _build_agent_refs title_ascii
      (agents_fs "/p/.cognitive-core" ["architect.md"; "reviewer.md"; "README"])
      "/p/.cognitive-core".
Proof.
  apply (agent_documents_order title_ascii _ _ "/home/dev" "/p"
           "/p/.cognitive-core" ∅
           ["reviewer.md"; "README"; "architect.md"]
           ["architect.md"; "reviewer.md"; "README"]);
    [reflexivity | reflexivity |].
  symmetry.
  apply (Permutation_cons_append ["reviewer.md"; "README"] "architect.md").
Defined.

(** ** The lines of the safety section *)

Lemma lstrip_free (c : ascii) (s : string) :
  free_of c s = true → free_of c (Str.lstrip s) = true.
Proof.
  induction s as [|x s IH]; [done|]. cbn [Str.lstrip].
  destruct (Str.isspace x); [|done]. intros H%free_of_tail. by apply IH.
Qed.

Lemma strip_free (c : ascii) (s : string) :
  free_of c s = true → free_of c (Str.strip s) = true.
Proof. intros H. by apply rstrip_free, lstrip_free. Qed.

Lemma split_join_lines (l : list string) :
  l ≠ [] → Forall (λ x, free_of (ascii_of_nat 10) x = true) l →
  Str.split (Str.join nl l) (ascii_of_nat 10) = l.
Proof.
  intros Hne Hl. destruct l as [|h t]; [done|].
  apply Forall_cons in Hl as [Hh Ht].
  unfold Str.nl. rewrite join_sep_cat. by apply split_sep_cat.
Qed.

Lemma rule_of_match_line (content : string) (m : Re.re_match) :
  occurrence content m →
  free_of (ascii_of_nat 10) (rule_of_match m) = true
  ∧ Str.startswith (rule_of_match m) "- NEVER: " = true.
Proof.
  intros (_ & _ & _ & _ & _ & _ & _ & _ & Hfree). unfold rule_of_match. split.
  - rewrite free_of_app. by rewrite strip_free.
  - apply prefix_app.
Qed.

(** X2.  Whatever [_extract_safety_rules] returns is a list of bullets:
    every line of the text begins with [- NEVER].  When the hook has
    matches, the lines of the text are the rules of the matches, one line
    each, so the section has as many lines as the hook has markers. *)
Theorem safety_section_is_bulleted
    (fs : filesystem) (install_dir s : string) :
  _extract_safety_rules fs install_dir = Ok s →
  Forall (λ line, Str.startswith line "- NEVER" = true)
    (Str.split s (ascii_of_nat 10))
  ∧ ∀ content,
      fs (os.join install_dir ["hooks"; "validate-bash.sh"])
        = Some (File (Ok content)) →
      Re.finditer reason_pattern content ≠ [] →
      Str.split s (ascii_of_nat 10)
      = map (λ m, "- NEVER: " +:+ Str.strip (Re.group1 m))
          (Re.finditer reason_pattern content).
Proof.
  assert (Forall (λ line, Str.startswith line "- NEVER" = true)
            (Str.split _default_safety_rules (ascii_of_nat 10))) as Hdefault.
  { let l := eval vm_compute in
               (Str.split _default_safety_rules (ascii_of_nat 10)) in
    change (Str.split _default_safety_rules (ascii_of_nat 10)) with l.
    repeat (constructor; [reflexivity|]). constructor. }
  assert (∀ content,
            Re.finditer reason_pattern content ≠ [] →
            Str.split
              (Str.join nl
                 (map rule_of_match (Re.finditer reason_pattern content)))
              (ascii_of_nat 10)
            = map rule_of_match (Re.finditer reason_pattern content)
            ∧ Forall (λ line, Str.startswith line "- NEVER" = true)
                (map rule_of_match (Re.finditer reason_pattern content)))
    as Hrules.
  { intros content Hne. destruct (finditer_sound content) as [Hocc _].
    split.
    - apply split_join_lines; [by destruct (Re.finditer _ _)|].
      apply Forall_map. eapply Forall_impl; [exact Hocc|].
      intros m Hm. by apply (rule_of_match_line content).
    - apply Forall_map. eapply Forall_impl; [exact Hocc|].
      intros m Hm.
      apply (prefix_app "- NEVER" (": " +:+ Str.strip (Re.group1 m))). }
  unfold _extract_safety_rules, os.isfile, os.read.
  destruct (fs (os.join install_dir ["hooks"; "validate-bash.sh"]))
    as [[[content|e]|l]|] eqn:Hfs; cbn [negb].
  - destruct (Re.finditer reason_pattern content) as [|m ms] eqn:E.
    + intros <-%Ok_inj. split; [done|]. by intros ? [= <-].
    + intros <-%Ok_inj. rewrite <- E. destruct (Hrules content) as [H1 H2];
        [by rewrite E|].
      split; [by rewrite H1|]. intros ? [= <-] _. exact H1.
  - destruct (_ || _); [|done]. intros <-%Ok_inj. split; [done|]. done.
  - intros <-%Ok_inj. split; [done|]. done.
  - intros <-%Ok_inj. split; [done|]. done.
Qed.

Lemma safety_section_is_bulleted_witness :
  Str.split ("- NEVER: rm -rf /" +:+ nl +:+ "- NEVER: force push")
    (ascii_of_nat 10)
  = map (λ m, "- NEVER: " +:+ Str.strip (Re.group1 m))
      (Re.finditer reason_pattern two_markers).
Proof.
  destruct (safety_section_is_bulleted (hook_fs two_markers)
              "/p/.cognitive-core"
              ("- NEVER: rm -rf /" +:+ nl +:+ "- NEVER: force push")
              eq_refl) as [_ H].
  apply (H two_markers); [reflexivity | by vm_compute].
Defined.

(** ** One pattern per line *)

Lemma no_space_free (t : string) :
  no_space t = true → free_of (ascii_of_nat 10) t = true.
Proof.
  induction t as [|c t IH]; [done|]. cbn [no_space free_of].
  intros [Hc Ht]%andb_true_iff. rewrite IH by done. rewrite andb_true_r.
  apply negb_true_iff. apply negb_true_iff in Hc.
  destruct (Ascii.eqb_spec c (ascii_of_nat 10)) as [->|]; [|done].
  by vm_compute in Hc.
Qed.

Lemma token_free (t : string) :
  token t = true → free_of (ascii_of_nat 10) t = true.
Proof. unfold token. intros [_ H]%andb_true_iff. by apply no_space_free. Qed.

Lemma ignore_lines_free (config : gmap string string) :
  Forall (λ l, free_of (ascii_of_nat 10) l = true) (ignore_lines config).
Proof.
  unfold ignore_lines.
  assert (Forall (λ l, free_of (ascii_of_nat 10) l = true) ignore_baseline)
    as Hb by (by repeat constructor).
  destruct (String.eqb _ ""); [done|].
  apply Forall_app. split; [done|].
  apply Forall_app. split; [by repeat constructor|].
  eapply Forall_impl; [apply split_ws_tokens|]. apply token_free.
Qed.

Lemma ignore_lines_not_nil (config : gmap string string) :
  ignore_lines config ≠ [].
Proof. unfold ignore_lines. by destruct (String.eqb _ ""). Qed.

(** X3.  The ignore document has one pattern per line: its lines are the
    lines the renderer collects, none of them broken in two, whatever white
    space (line feeds included) the blocked patterns value holds; and every
    line after the label of the project section is a token without white
    space. *)
Theorem ignore_document_one_pattern_per_line
    (project_dir install_dir : string) (config : gmap string string) :
  ∃ doc,
    generate_ignore project_dir install_dir config = Ok doc
    ∧ Str.split (content doc) (ascii_of_nat 10) = ignore_lines config ++ [""]
    ∧ ∃ extra,
        ignore_lines config = ignore_baseline ++ extra
        ∧ Forall (λ l, l = "" ∨ l = "# Project-specific blocked patterns"
                       ∨ token l = true) extra.
Proof.
  eexists. split; [reflexivity|]. cbn [content]. split.
  - rewrite join_lines by apply ignore_lines_not_nil.
    rewrite <- (str_app_nil_r (Shell.cat _)).
    rewrite split_lines by apply ignore_lines_free. done.
  - unfold ignore_lines. destruct (String.eqb _ "").
    + exists []. by rewrite List.app_nil_r.
    + eexists. split; [reflexivity|].
      constructor; [by left|]. constructor; [by right; left|].
      eapply Forall_impl; [apply split_ws_tokens|]. intros l Hl. by right; right.
Qed.

(** ** The export statements of the launcher *)

Lemma contains_app_r (sub a s : string) :
  Str.contains sub s = true → Str.contains sub (a +:+ s) = true.
Proof.
  intros H. induction a as [|x a IH]; [done|].
  rewrite str_app_cons. cbn [Str.contains]. rewrite IH. apply orb_true_r.
Qed.

Lemma export_line_parts (l : string) :
  export_line l = true →
  l ≠ "" ∧ Str.contains "=" l = true
  ∧ free_of (ascii_of_nat 10) l = true ∧ Str.strip l = l.
Proof.
  unfold export_line.
  intros [[[H1 H2]%andb_true_iff H3]%andb_true_iff H4]%andb_true_iff.
  apply negb_true_iff, String.eqb_neq in H1. by apply String.eqb_eq in H4.
Qed.

Lemma strip_fixed_rstrip (l : string) : Str.strip l = l → Str.rstrip l = l.
Proof.
  intros H. destruct l as [|c l]; [done|].
  pose proof (strip_fixed_head c l H) as Hc.
  unfold Str.strip in H. cbn [Str.lstrip] in H. by rewrite Hc in H.
Qed.

Lemma rstrip_join_lines (lines : list string) :
  Forall (λ l, l ≠ "" ∧ Str.strip l = l) lines →
  Str.rstrip (Str.join nl lines) = Str.join nl lines.
Proof.
  induction 1 as [|h t [Hh Hs] Ht IH]; [done|].
  destruct t as [|h2 t]; [by apply strip_fixed_rstrip|].
  rewrite join_cons by done. rewrite str_app_assoc.
  rewrite rstrip_app_nonempty; rewrite IH; [done|].
  inversion Ht as [|? ? [Hh2 _] _]; subst. by apply join_not_nil.
Qed.

Lemma strip_join_lines (lines : list string) :
  Forall (λ l, l ≠ "" ∧ Str.strip l = l) lines →
  Str.strip (Str.join nl lines) = Str.join nl lines.
Proof.
  intros H. unfold Str.strip.
  assert (Str.lstrip (Str.join nl lines) = Str.join nl lines) as ->;
    [|by apply rstrip_join_lines].
  destruct H as [|h t [Hh Hs] _]; [done|].
  destruct h as [|c h]; [done|].
  pose proof (strip_fixed_head c h Hs) as Hc.
  destruct t as [|h2 t].
  - cbn [Str.join String.concat Str.lstrip]. by rewrite Hc.
  - rewrite join_cons by done. rewrite str_app_cons.
    cbn [Str.lstrip]. by rewrite Hc.
Qed.

(** X4.  Every line [_generate_env_exports] returns is a comment or an
    [export] statement with an [=]: no line of [CC_ENV_VARS] reaches the
    launcher script as a command of its own. *)
Theorem env_exports_lines (env_vars : string) :
  Forall (λ l, Str.startswith l "#" = true
               ∨ (Str.startswith l "export " = true
                  ∧ Str.contains "=" l = true))
    (Str.split (_generate_env_exports env_vars) (ascii_of_nat 10)).
Proof.
  unfold _generate_env_exports.
  destruct (String.eqb (Str.strip env_vars) ""); [by repeat constructor|].
  cbv zeta.
  set (exports := omap _ (Str.split (Str.strip env_vars) (ascii_of_nat 10))).
  assert (Forall (λ l, free_of (ascii_of_nat 10) l = true
                       ∧ Str.startswith l "export " = true
                       ∧ Str.contains "=" l = true)
            exports) as Hexports.
  { apply Forall_forall. intros x (piece & Hin & Hx)%list_elem_of_omap.
    destruct (negb _ && Str.contains "=" (Str.strip piece)) eqn:E; [|done].
    injection Hx as <-. apply andb_true_iff in E as [_ E].
    pose proof (split_pieces_free (Str.strip env_vars) (ascii_of_nat 10))
      as Hfree.
    rewrite Forall_forall in Hfree. specialize (Hfree piece Hin).
    split; [|split].
    - rewrite free_of_app. by rewrite strip_free.
    - apply prefix_app.
    - by apply contains_app_r. }
  destruct exports as [|x l] eqn:E; [by repeat constructor|].
  rewrite split_join_lines; [|done|].
  - eapply Forall_impl; [exact Hexports|]. intros y (_ & ? & ?). by right.
  - eapply Forall_impl; [exact Hexports|]. by intros y (? & _).
Qed.

(** X5.  A block of [KEY=VALUE] lines, each without white space around it,
    becomes the same lines with [export ] in front, in the same order. *)
Theorem env_exports_of_lines (lines : list string) :
  lines ≠ [] → Forall (λ l, export_line l = true) lines →
  _generate_env_exports (Str.join nl lines)
  = Str.join nl (map (λ l, "export " +:+ l) lines).
Proof.
  intros Hne Hlines.
  assert (Forall (λ l, l ≠ "" ∧ Str.strip l = l) lines) as Hs.
  { eapply Forall_impl; [exact Hlines|].
    by intros l (? & _ & _ & ?)%export_line_parts. }
  assert (Forall (λ l, free_of (ascii_of_nat 10) l = true) lines) as Hfree.
  { eapply Forall_impl; [exact Hlines|].
    by intros l (_ & _ & ? & _)%export_line_parts. }
  unfold _generate_env_exports. rewrite strip_join_lines by done.
  assert (Str.join nl lines ≠ "") as Hj.
  { destruct Hs as [|h t [Hh _] _]; [done|]. by apply join_not_nil. }
  apply String.eqb_neq in Hj as ->.
  rewrite split_join_lines by done. cbv zeta.
  assert (omap
            (λ line,
               if negb (String.eqb (Str.strip line) "")
                  && Str.contains "=" (Str.strip line)
               then Some ("export " +:+ Str.strip line) else None) lines
          = map (λ l, "export " +:+ l) lines) as ->.
  { clear Hne Hs Hfree.
    induction Hlines as [|l t (Hl & Hc & _ & Hst)%export_line_parts _ IH];
      [done|].
    cbn [omap list_omap map]. rewrite Hst, Hc.
    apply String.eqb_neq in Hl as ->. cbn [negb andb].
    by f_equal. }
  by destruct lines.
Qed.

Lemma env_exports_of_lines_witness :
  _generate_env_exports
    (Str.join nl ["OLLAMA_NUM_PARALLEL=2"; "AIDER_DARK_MODE=true"])
  = Str.join nl
      ["export OLLAMA_NUM_PARALLEL=2"; "export AIDER_DARK_MODE=true"].
Proof.
  apply (env_exports_of_lines
           ["OLLAMA_NUM_PARALLEL=2"; "AIDER_DARK_MODE=true"]);
    [done | by repeat constructor].
Defined.

(** ** The launcher script *)

Lemma launcher_lines_parts (config : gmap string string) :
  launcher_lines config
  = take 17 (launcher_lines config)
    ++ [_generate_env_exports (get config "CC_ENV_VARS" "")]
    ++ drop 18 (launcher_lines config).
Proof. reflexivity. Qed.

Lemma launcher_lines_free (config : gmap string string) :
  free_of (ascii_of_nat 10) (get config "CC_PROJECT_NAME" "project") = true →
  free_of (ascii_of_nat 10) (get config "CC_AIDER_MODEL" "qwen2.5-coder:32b")
    = true →
  free_of (ascii_of_nat 10)
    (get config "CC_AIDER_OLLAMA_BASE" "http://localhost:11434") = true →
  Forall (λ l, free_of (ascii_of_nat 10) l = true)
    (take 17 (launcher_lines config))
  ∧ Forall (λ l, free_of (ascii_of_nat 10) l = true)
      (drop 18 (launcher_lines config)).
Proof.
  intros Hp Hm Ho. unfold launcher_lines. cbn [take drop].
  split; repeat (constructor;
                 [rewrite ?free_of_app, ?Hp, ?Hm, ?Ho; reflexivity|]);
    constructor.
Qed.

(** X6.  When the project name, the model and the Ollama address hold no
    line feed, the launcher is the fixed script with the export block in
    its place: seventeen lines that begin with the shebang, then the lines
    of [_generate_env_exports], then the banner and the [exec] line. *)
Theorem launcher_script_lines
    (project_dir install_dir : string) (config : gmap string string) :
  free_of (ascii_of_nat 10) (get config "CC_PROJECT_NAME" "project") = true →
  free_of (ascii_of_nat 10) (get config "CC_AIDER_MODEL" "qwen2.5-coder:32b")
    = true →
  free_of (ascii_of_nat 10)
    (get config "CC_AIDER_OLLAMA_BASE" "http://localhost:11434") = true →
  ∃ doc before after,
    generate_launcher project_dir install_dir config = Ok doc
    ∧ executable doc = true
    ∧ Str.split (content doc) (ascii_of_nat 10)
      = before
        ++ Str.split (_generate_env_exports (get config "CC_ENV_VARS" ""))
             (ascii_of_nat 10)
        ++ after ++ [""]
    ∧ length before = 17 ∧ head before = Some "#!/bin/bash"
    ∧ length after = 9
    ∧ last after = Some ("exec aider " +:+ dq +:+ "$@" +:+ dq).
Proof.
  intros Hp Hm Ho.
  destruct (launcher_lines_free config Hp Hm Ho) as [Hbefore Hafter].
  exists {| path := os.join project_dir ["cc-aider-start.sh"];
            content := Str.join nl (launcher_lines config) +:+ nl;
            executable := true |},
    (take 17 (launcher_lines config)), (drop 18 (launcher_lines config)).
  split; [reflexivity|]. split; [reflexivity|].
  split; [|by repeat split]. cbn [content].
  rewrite join_lines by done.
  rewrite (launcher_lines_parts config) at 1.
  rewrite !map_app, !cat_app. cbn [map Shell.cat].
  rewrite <- !str_app_assoc, str_app_nil_l.
  rewrite split_lines by done. f_equal.
  change (nl +:+ ?s) with (String (ascii_of_nat 10) s).
  rewrite split_app_sep. f_equal.
  rewrite <- (str_app_nil_r (Shell.cat _)).
  by rewrite split_lines.
Qed.

Lemma launcher_script_lines_witness :
  ∃ doc before after,
    generate_launcher "/p" "/p/.cognitive-core" demo_config = Ok doc
    ∧ executable doc = true
    ∧ Str.split (content doc) (ascii_of_nat 10)
      = before
        ++ Str.split (_generate_env_exports (get demo_config "CC_ENV_VARS" ""))
             (ascii_of_nat 10)
        ++ after ++ [""]
    ∧ length before = 17 ∧ head before = Some "#!/bin/bash"
    ∧ length after = 9
    ∧ last after = Some ("exec aider " +:+ dq +:+ "$@" +:+ dq).
Proof.
  apply (launcher_script_lines "/p" "/p/.cognitive-core" demo_config);
    reflexivity.
Defined.

(** ** The dict of the printed variables *)

Lemma rstrip_eq_value (k v : string) :
  Str.rstrip (k +:+ "=" +:+ v) = k +:+ "=" +:+ Str.rstrip v.
Proof.
  rewrite str_app_assoc. destruct (Str.rstrip v) as [|y r] eqn:E.
  - rewrite (rstrip_app_empty _ v E). by rewrite rstrip_app_nonempty.
  - rewrite rstrip_app_nonempty by (by rewrite E).
    by rewrite E, <- str_app_assoc.
Qed.

Lemma rstrip_lines_exact (L : list string) (l : string) :
  Forall (λ x, (∃ c t, x = String c t ∧ Str.isspace c = false)
               ∧ free_of (ascii_of_nat 10) x = true) (L ++ [l]) →
  Str.split (Str.rstrip (Shell.cat (map (λ x, x +:+ nl) (L ++ [l]))))
    (ascii_of_nat 10)
  = L ++ [Str.rstrip l].
Proof.
  induction L as [|h L IH]; intros H.
  - apply Forall_cons in H as [[_ Hfree] _]. cbn [app map Shell.cat].
    rewrite str_app_nil_r, rstrip_app_empty by done.
    apply split_free. by apply rstrip_free.
  - cbn [app] in H. apply Forall_cons in H as [[_ Hfree] H].
    specialize (IH H). cbn [app map Shell.cat].
    assert (Str.rstrip (Shell.cat (map (λ x, x +:+ nl) (L ++ [l]))) ≠ "")
      as Hne.
    { destruct (L ++ [l]) as [|x t] eqn:E; [by destruct L|].
      apply Forall_cons in H as [[(c & t' & -> & Hc) _] _].
      cbn [map Shell.cat]. rewrite !str_app_cons.
      by apply rstrip_head_nonspace. }
    rewrite rstrip_app_nonempty by done. rewrite <- str_app_assoc.
    change (nl +:+ ?s) with (String (ascii_of_nat 10) s).
    rewrite split_app by done. by rewrite IH.
Qed.

Lemma env_name_parts (k : string) :
  env_name k = true →
  free_of "=" k = true ∧ free_of (ascii_of_nat 10) k = true
  ∧ ∃ c t, k = String c t ∧ Str.isspace c = false.
Proof.
  unfold env_name. intros [[H1 H2]%andb_true_iff H3]%andb_true_iff.
  split; [done|]. split; [done|]. destruct k as [|c t]; [done|].
  exists c, t. split; [done|]. by apply negb_true_iff.
Qed.

Lemma env_output_lines (pairs : list (string * string)) :
  Shell.env_output pairs
  = Shell.cat (map (λ x, x +:+ nl)
                 (map (λ nv, nv.1 +:+ "=" +:+ nv.2) pairs)).
Proof.
  unfold Shell.env_output. induction pairs as [|nv l IH]; [done|].
  cbn [map Shell.cat]. rewrite IH. unfold Shell.env_line.
  by rewrite <- !str_app_assoc.
Qed.

Lemma foldl_parse_pairs (pairs : list (string * string))
    (m : gmap string string) :
  Forall (λ nv, free_of "=" nv.1 = true) pairs →
  foldl parse_line m (map (λ nv, nv.1 +:+ "=" +:+ nv.2) pairs)
  = foldl (λ m nv, <[nv.1 := nv.2]> m) m pairs.
Proof.
  intros H. revert m. induction H as [|nv l Hnv _ IH]; intros m; [done|].
  cbn [map foldl]. by rewrite parse_line_key, IH.
Qed.

(** X7.  When the shell prints the variables [NAME=VALUE], one per line,
    [load_config] returns the dict of these pairs: a value is everything
    after the first [=], further [=] included, and a later pair of a name
    replaces an earlier one.  Only the value of the last line is changed:
    [strip] on the whole output takes the white space from its end. *)
Theorem load_config_of_printed_variables
    (fs : filesystem) (run : list string → result string)
    (config_file : string) (pairs : list (string * string)) (k v : string) :
  config_file ≠ "" → os.isfile fs config_file = true →
  run ["bash"; "-c"; load_config_cmd config_file]
    = Ok (Shell.env_output (pairs ++ [(k, v)])) →
  Forall (λ nv, env_name nv.1 = true
                ∧ free_of (ascii_of_nat 10) nv.2 = true)
    (pairs ++ [(k, v)]) →
  load_config fs run config_file
  = Ok (dict_of (pairs ++ [(k, Str.rstrip v)])).
Proof.
  intros Hne Hfile Hrun Hpairs.
  rewrite (load_config_runs fs run _ _ Hne Hfile Hrun). f_equal.
  unfold parse_stdout, dict_of. rewrite env_output_lines.
  rewrite map_app. cbn [map fst snd].
  assert (Forall (λ x, (∃ c t, x = String c t ∧ Str.isspace c = false)
                       ∧ free_of (ascii_of_nat 10) x = true)
            (map (λ nv, nv.1 +:+ "=" +:+ nv.2) pairs ++ [k +:+ "=" +:+ v]))
    as Hlines.
  { change [k +:+ "=" +:+ v]
      with (map (λ nv : string * string, nv.1 +:+ "=" +:+ nv.2) [(k, v)]).
    rewrite <- map_app. apply Forall_map.
    eapply Forall_impl; [exact Hpairs|]. intros [n w]. cbn [fst snd].
    intros [(Heq & Hnl & c & t & -> & Hc)%env_name_parts Hw]. split.
    - exists c, (t +:+ "=" +:+ w). by rewrite str_app_cons.
    - by rewrite !free_of_app, Hnl, Hw. }
  assert (Str.strip
            (Shell.cat
               (map (λ x, x +:+ nl)
                  (map (λ nv, nv.1 +:+ "=" +:+ nv.2) pairs
                   ++ [k +:+ "=" +:+ v])))
          = Str.rstrip
              (Shell.cat
                 (map (λ x, x +:+ nl)
                    (map (λ nv, nv.1 +:+ "=" +:+ nv.2) pairs
                     ++ [k +:+ "=" +:+ v])))) as ->.
  { unfold Str.strip. f_equal.
    destruct (map _ pairs ++ _) as [|x t] eqn:E; [done|].
    apply Forall_cons in Hlines as [[(c & t' & -> & Hc) _] _].
    cbn [map Shell.cat]. rewrite !str_app_cons. cbn [Str.lstrip].
    by rewrite Hc. }
  rewrite rstrip_lines_exact by done. rewrite rstrip_eq_value.
  change [k +:+ "=" +:+ Str.rstrip v]
    with (map (λ nv : string * string, nv.1 +:+ "=" +:+ nv.2)
            [(k, Str.rstrip v)]).
  rewrite <- map_app. apply foldl_parse_pairs.
  apply Forall_app. apply Forall_app in Hpairs as [Hp Hk]. split.
  - eapply Forall_impl; [exact Hp|].
    by intros nv [(? & _)%env_name_parts _].
  - apply Forall_cons in Hk as [[(? & _)%env_name_parts _] _].
    by repeat constructor.
Qed.

Lemma load_config_of_printed_variables_witness :
  load_config conf_fs
    (λ _, Ok (Shell.env_output
                [("CC_PROJECT_NAME", "demo");
                 ("CC_TEST_COMMAND", "pytest -k a=b  ")]))
    "/p/cognitive-core.conf"
  = Ok (dict_of [("CC_PROJECT_NAME", "demo");
                 ("CC_TEST_COMMAND", "pytest -k a=b")]).
Proof.
  apply (load_config_of_printed_variables conf_fs _ "/p/cognitive-core.conf"
           [("CC_PROJECT_NAME", "demo")] "CC_TEST_COMMAND" "pytest -k a=b  ");
    [done | reflexivity | reflexivity | by repeat constructor].
Defined.

(** ** The settings document in the documented layout *)

Lemma mapM_map_Ok {A B} (f : A → result B) (g : A → B) (l : list A) :
  Forall (λ x, f x = Ok (g x)) l → mapM f l = Ok (map g l).
Proof.
  induction 1 as [|x l Hx _ IH]; [done|].
  cbn [mapM map]. rewrite Hx. cbn [mbind result_bind].
  fold (mapM f l). by rewrite IH.
Qed.

(** X8.  When the install directory is the [.cognitive-core] of the
    project directory (as normalised absolute paths), the read list of the
    settings document names, after [CONVENTIONS.md], the file
    [.cognitive-core/agents/<name>] for every [.md] entry of the agents
    directory, in the order of the names. *)
Theorem settings_document_in_layout
    (fs : filesystem) (cwd project_dir install_dir : string)
    (config : gmap string string) (entries : list string) :
  Str.startswith cwd "/" = true →
  fs (os.join install_dir ["agents"]) = Some (Dir (Ok entries)) →
  Forall (λ f, file_name f = true) entries →
  os.components (os.abspath cwd install_dir)
    = os.components (os.abspath cwd (os.join project_dir [".cognitive-core"])) →
  generate_settings fs cwd project_dir install_dir config
  = Ok {| path := os.join project_dir [".aider.conf.yml"];
          content :=
            Str.join nl
              (settings_head config
               ++ map (λ f, "  - .cognitive-core/agents/" +:+ f)
                    (md_files entries)) +:+ nl;
          executable := false |}.
Proof.
  intros Hcwd Hfs Hnames Hsame.
  rewrite components_abspath, install_dir_comps in Hsame by done.
  unfold generate_settings, settings_lines, settings_agent_lines,
    os.isdir, os.listdir. rewrite Hfs. cbn [mbind result_bind].
  rewrite (mapM_map_Ok _ (λ f, "  - .cognitive-core/agents/" +:+ f)); [done|].
  eapply Forall_impl; [apply (md_files_file_names _ Hnames)|].
  intros f Hf. unfold settings_agent_line.
  pose proof (proj2 (relpath_fixed_iff cwd project_dir install_dir f Hcwd Hf)
                Hsame) as Hrel.
  rewrite Hrel. cbn [mbind result_bind].
  by rewrite fixed_agent_path.
Qed.

Lemma settings_document_in_layout_witness :
  generate_settings
    (agents_fs "/p/.cognitive-core/" ["reviewer.md"; "notes.txt"; "architect.md"])
    "/home/dev" "/p" "/p/.cognitive-core/" demo_config
  = Ok {| path := "/p/.aider.conf.yml";
          content :=
            Str.join nl
              (settings_head demo_config
               ++ ["  - .cognitive-core/agents/architect.md";
                   "  - .cognitive-core/agents/reviewer.md"]) +:+ nl;
          executable := false |}.
Proof.
  apply (settings_document_in_layout
           (agents_fs "/p/.cognitive-core/"
              ["reviewer.md"; "notes.txt"; "architect.md"])
           "/home/dev" "/p" "/p/.cognitive-core/" demo_config
           ["reviewer.md"; "notes.txt"; "architect.md"]);
    [reflexivity | reflexivity | by repeat constructor | reflexivity].
Defined.

(** ** What is not recovered *)






(** X11.  [load_config] raises only what the shell call raises beside a
    timeout and a missing interpreter: with an existing file, any other
    exception of [subprocess.run] (a [bash] that may not be executed,
    output that is not text) ends the run. *)
Theorem load_config_raises_iff
    (fs : filesystem) (run : list string → result string)
    (config_file : string) (e : exn) :
  load_config fs run config_file = Raise e
  ↔ config_file ≠ "" ∧ os.isfile fs config_file = true
    ∧ run ["bash"; "-c"; load_config_cmd config_file] = Raise e
    ∧ e ≠ TimeoutExpired ∧ e ≠ FileNotFoundError.
Proof.
  unfold load_config.
  destruct (String.eqb_spec config_file "") as [->|Hne]; cbn [orb].
  { split; [done | by intros [? _]]. }
  destruct (os.isfile fs config_file); cbn [negb].
  - destruct (run _) as [out|e']; [split; [done | by intros (_ & _ & [=] & _)]|].
    destruct e'; split;
      try (intros [= <-]; by repeat split);
      try done;
      try (by intros (_ & _ & [= <-] & _));
      try (by intros (_ & _ & [= <-] & ? & ?)).
  - split; [done | by intros (_ & [=] & _)].
Qed.

(** ** Substitution of the recognized placeholders *)

Lemma replace_no_open (key new s : string) :
  free_of "{" s = true → Str.replace_from (placeholder key) new 0 s = s.
Proof.
  induction s as [|c s IH]; [done|]. intros H.
  pose proof (free_of_head _ _ _ H) as Hc. apply free_of_tail in H.
  rewrite replace_no_match; [by rewrite IH|].
  rewrite placeholder_cons. by apply prefix_head_ne.
Qed.

Lemma replace_at_token (name new a b : string) :
  free_of "{" a = true →
  Str.replace_from (placeholder name) new 0 (a +:+ placeholder name +:+ b)
  = a +:+ new +:+ Str.replace_from (placeholder name) new 0 b.
Proof.
  induction a as [|c a IH]; intros H.
  - rewrite !str_app_nil_l. by apply replace_match.
  - pose proof (free_of_head _ _ _ H) as Hc. apply free_of_tail in H.
    rewrite !str_app_cons. rewrite replace_no_match; [by rewrite IH|].
    rewrite placeholder_cons. by apply prefix_head_ne.
Qed.

Lemma str_replace_placeholder (s key new : string) :
  Str.replace s (placeholder key) new
  = Str.replace_from (placeholder key) new 0 s.
Proof. done. Qed.

Lemma replace_all_no_open (l : list (string * string)) (s : string) :
  Forall (λ r, ∃ key, r.1 = placeholder key ∧ brace_free key = true) l →
  free_of "{" s = true → replace_all s l = s.
Proof.
  intros Hl Hs. induction Hl as [|[old new] l (key & Hold & _) _ IH]; [done|].
  unfold replace_all in *. cbn [foldl]. simpl in Hold. subst old.
  by rewrite str_replace_placeholder, replace_no_open.
Qed.

Lemma placeholder_inj (a b : string) : placeholder a = placeholder b → a = b.
Proof.
  unfold placeholder. intros H. apply String.app_inj in H.
  revert b H. induction a as [|x a IH]; intros [|y b] H; try done.
  - destruct b as [|? [|? ?]]; discriminate.
  - destruct a as [|? [|? ?]]; discriminate.
  - rewrite !str_app_cons in H. injection H as -> H. f_equal. by apply IH.
Qed.

(** In a text without other braces, a substitution list with distinct
    keys puts the value of the key in the place of its token. *)
Lemma replace_all_substitutes (l : list (string * string))
    (name value a b : string) :
  Forall (λ r, ∃ key, r.1 = placeholder key ∧ brace_free key = true) l →
  NoDup (map fst l) →
  (placeholder name, value) ∈ l →
  brace_free name = true →
  free_of "{" a = true → free_of "{" b = true → free_of "{" value = true →
  replace_all (a +:+ placeholder name +:+ b) l = a +:+ value +:+ b.
Proof.
  intros Hl Hnd Hin Hname Ha Hb Hv.
  induction Hl as [|[old new] l (key & Hold & Hkey) Hl IH];
    [by apply elem_of_nil in Hin|].
  simpl in Hold. subst old. cbn [map fst] in Hnd.
  apply NoDup_cons in Hnd as [Hnotin Hnd].
  unfold replace_all in *. cbn [foldl].
  apply elem_of_cons in Hin as [Heq|Hin].
  - pose proof (f_equal fst Heq) as Hk. pose proof (f_equal snd Heq) as Hn.
    cbn [fst snd] in Hk, Hn. subst new. clear Heq.
    apply placeholder_inj in Hk as <-.
    rewrite str_replace_placeholder, replace_at_token by done.
    rewrite replace_no_open by done.
    apply (replace_all_no_open l); [done|].
    by rewrite !free_of_app, Ha, Hv, Hb.
  - assert (key ≠ name) as Hne.
    { intros ->. apply Hnotin. apply list_elem_of_fmap.
      by exists (placeholder name, value). }
    rewrite (replace_keeps_token _ key) by done.
    rewrite !str_replace_placeholder, !replace_no_open by done.
    by apply IH.
Qed.

Lemma render_template_substitutions (v : conventions_values)
    (safety_rules agent_refs content : string) :
  render_template v safety_rules agent_refs content
  = replace_all content (substitutions v safety_rules agent_refs).
Proof.
  unfold render_template, substitutions, replace_all.
  by rewrite foldl_app.
Qed.

Lemma substitutions_keys (v : conventions_values)
    (safety_rules agent_refs : string) :
  map fst (substitutions v safety_rules agent_refs)
  = map placeholder recognized_names.
Proof. reflexivity. Qed.

Lemma substitutions_shape (v : conventions_values)
    (safety_rules agent_refs : string) :
  Forall (λ r, ∃ key, r.1 = placeholder key ∧ brace_free key = true)
    (substitutions v safety_rules agent_refs).
Proof.
  repeat apply Forall_cons_2; try apply Forall_nil_2;
    match goal with
    | |- ∃ key, (?old, _).1 = _ ∧ _ =>
        exists (String.substring 2 (String.length old - 4) old)
    end; by split.
Qed.

Lemma recognized_names_NoDup : NoDup (map placeholder recognized_names).
Proof.
  assert (Inj eq eq placeholder) as Hinj
    by (intros a b; apply placeholder_inj).
  apply (NoDup_fmap_2 placeholder). apply NoDup_ListNoDup. unfold recognized_names.
  repeat (constructor; [simpl; intuition discriminate|]). constructor.
Qed.

(** X12.  In the template path each of the fourteen recognized
    placeholders stands for its value: a template [a {{NAME}} b] without
    other braces is rendered as [a], the value, [b], where the value is the
    configured one or its default, the safety rules or the agent
    references, when the value holds no opening brace. *)
Theorem conventions_template_substitutes
    (title : string → string) (script_file : string) (fs : filesystem)
    (project_dir install_dir : string) (config : gmap string string)
    (name value a b safety_rules agent_refs : string) :
  fs (template_path script_file)
    = Some (File (Ok (a +:+ placeholder name +:+ b))) →
  _extract_safety_rules fs install_dir = Ok safety_rules →
  _build_agent_refs title fs install_dir = Ok agent_refs →
  (placeholder name, value)
    ∈ substitutions (conventions_config config) safety_rules agent_refs →
  free_of "{" a = true → free_of "{" b = true → free_of "{" value = true →
  generate_conventions title script_file fs project_dir install_dir config
  = Ok {| path := os.join project_dir ["CONVENTIONS.md"];
          content := a +:+ value +:+ b;
          executable := false |}.
Proof.
  intros Hfs Hs Hr Hin Ha Hb Hv.
  unfold generate_conventions, os.isfile, os.read. rewrite Hfs.
  cbn [mbind result_bind]. rewrite Hs, Hr. cbn [mbind result_bind].
  rewrite render_template_substitutions.
  rewrite (replace_all_substitutes _ name value); try done.
  - apply substitutions_shape.
  - rewrite substitutions_keys. apply recognized_names_NoDup.
  - pose proof (substitutions_shape (conventions_config config)
                  safety_rules agent_refs) as Hshape.
    rewrite Forall_forall in Hshape.
    destruct (Hshape _ Hin) as (key & Hk & Hbf). simpl in Hk.
    by apply placeholder_inj in Hk as ->.
Qed.

Lemma conventions_template_substitutes_witness :
  generate_conventions title_ascii script
    (template_fs ("Language: " +:+ placeholder "CC_LANGUAGE" +:+ ".")) "/p"
    "/p/.cognitive-core" demo_config
  = Ok {| path := "/p/CONVENTIONS.md";
          content := "Language: unknown.";
          executable := false |}.
Proof.
  apply (conventions_template_substitutes title_ascii script
           (template_fs ("Language: " +:+ placeholder "CC_LANGUAGE" +:+ "."))
           "/p" "/p/.cognitive-core" demo_config
           "CC_LANGUAGE" "unknown" "Language: " "."
           _default_safety_rules no_agent_docs);
    try reflexivity.
  apply elem_of_cons; right. left.
Defined.

(** ** Markers inside a script *)

Lemma prefix_across (m p x : string) (c : ascii) :
  free_of c m = true →
  String.prefix m (p +:+ String c x) = true → String.prefix m p = true.
Proof.
  revert p. induction m as [|y m IH]; intros p Hm H; [apply prefix_nil|].
  pose proof (free_of_head _ _ _ Hm) as Hy. apply free_of_tail in Hm.
  destruct p as [|z p].
  - rewrite str_app_nil_l, prefix_cons in H.
    apply andb_true_iff in H as [H%Ascii.eqb_eq _]. congruence.
  - rewrite str_app_cons, prefix_cons in H. rewrite prefix_cons.
    apply andb_true_iff in H as [-> H]. simpl. by apply IH.
Qed.

(** A marker that begins in the text before another marker lies in that
    text. *)
Lemma marker_not_across (p x : string) :
  p ≠ "" →
  String.prefix reason_marker (p +:+ reason_marker +:+ x) = true →
  String.prefix reason_marker p = true.
Proof.
  intros Hp H. destruct p as [|z p]; [done|].
  change reason_marker with (String "R" (Str.drop 1 reason_marker)) in *.
  rewrite str_app_cons, prefix_cons in H. rewrite prefix_cons.
  apply andb_true_iff in H as [-> H]. cbn [andb].
  rewrite (str_app_cons "R") in H.
  by apply (prefix_across _ p _ "R") in H.
Qed.

Lemma finditer_from_filler (filler x : string) (pos : nat) :
  Str.contains reason_marker filler = false →
  Re.finditer_from reason_pattern 0 pos (filler +:+ reason_marker +:+ x)
  = Re.finditer_from reason_pattern 0 (pos + String.length filler)
      (reason_marker +:+ x).
Proof.
  revert pos. induction filler as [|c f IH]; intros pos H.
  - by rewrite str_app_nil_l, Nat.add_0_r.
  - apply contains_cons in H as [Hp Hf].
    rewrite str_app_cons. cbn [Re.finditer_from].
    rewrite match_here_marker.
    assert (String.prefix reason_marker
              (String c (f +:+ reason_marker +:+ x)) = false) as ->.
    { apply not_true_iff_false. intros Hm. rewrite <- str_app_cons in Hm.
      apply marker_not_across in Hm; [congruence|done]. }
    rewrite IH by done.
    replace (pos + String.length (String c f))
      with (S pos + String.length f) by (cbn [String.length]; lia).
    done.
Qed.

Lemma finditer_hook_script (items : list (string * string)) (rest : string)
    (pos : nat) :
  Forall (λ fr, Str.contains reason_marker fr.1 = false
                ∧ plain_reason fr.2 = true) items →
  Str.contains reason_marker rest = false →
  map Re.group1
    (Re.finditer_from reason_pattern 0 pos (hook_script items rest))
  = map snd items.
Proof.
  intros Hitems Hrest. revert pos.
  induction Hitems as [|[filler r] items [Hf Hr] _ IH]; intros pos.
  - unfold hook_script. cbn [map Shell.cat]. rewrite str_app_nil_l.
    by rewrite finditer_from_no_marker.
  - unfold hook_script in *. cbn [map Shell.cat fst snd] in *.
    rewrite <- !str_app_assoc. rewrite finditer_from_filler by done.
    set (tail := Shell.cat _ +:+ rest).
    assert (reason_marker +:+ " " +:+ r +:+ dq +:+ tail
            = (reason_marker +:+ " " +:+ r +:+ dq) +:+ tail) as ->
      by (by rewrite <- !str_app_assoc).
    rewrite (finditer_from_match _ _ _ r); cycle 1.
    { done. }
    { rewrite <- !str_app_assoc. by apply match_here_marker_line. }
    cbn [map Re.group1]. f_equal. apply IH.
Qed.

(** X13.  The markers of a hook script are found wherever they stand: for
    a script with plain reasons and no other occurrence of the marker
    text, the safety section is the list of the reasons as bullets, in the
    order of the script, whatever stands between the markers. *)
Theorem extract_safety_rules_of_script
    (fs : filesystem) (install_dir : string)
    (items : list (string * string)) (rest : string) :
  fs (os.join install_dir ["hooks"; "validate-bash.sh"])
    = Some (File (Ok (hook_script items rest))) →
  items ≠ [] →
  Forall (λ fr, Str.contains reason_marker fr.1 = false
                ∧ plain_reason fr.2 = true) items →
  Str.contains reason_marker rest = false →
  _extract_safety_rules fs install_dir
  = Ok (Str.join nl (map (λ fr, "- NEVER: " +:+ fr.2) items)).
Proof.
  intros Hfs Hne Hitems Hrest.
  unfold _extract_safety_rules, os.isfile, os.read. rewrite Hfs. cbn [negb].
  pose proof (finditer_hook_script items rest 0 Hitems Hrest) as Hg.
  fold (Re.finditer reason_pattern (hook_script items rest)) in Hg.
  rewrite map_rule_of_match; rewrite Hg.
  - rewrite map_map. destruct items; [done|]. reflexivity.
  - apply Forall_map. eapply Forall_impl; [exact Hitems|].
    by intros fr [_ (_ & _ & _ & ?)%plain_reason_parts].
Qed.

Lemma extract_safety_rules_of_script_witness :
  _extract_safety_rules
    (hook_fs
       (hook_script
          [("#!/bin/bash
if dangerous; then
  ", "rm -rf /");
           ("
elif pushing; then
  ", "force push")]
          "
fi
exit 2
"))
    "/p/.cognitive-core"
  = Ok (Str.join nl ["- NEVER: rm -rf /"; "- NEVER: force push"]).
Proof.
  apply (extract_safety_rules_of_script _ "/p/.cognitive-core"
           [("#!/bin/bash
if dangerous; then
  ", "rm -rf /");
            ("
elif pushing; then
  ", "force push")]
           "
fi
exit 2
");
    [reflexivity | done | by repeat constructor | reflexivity].
Defined.

(** ** A run without configuration *)


